(** * Term collection from a museum API: batch fetch, pairing, aggregation

    A shallow embedding of [code/collectData.py] and
    [code/termsFromRawData.py], with the properties of their
    specification stated over it.

    Python values that come out of [response.json()] or [json.load] are
    modelled by the type [json]; Python exceptions by the type [exn];
    the network, the clock, the file system and the keyboard by an
    explicit [state] threaded through a state-and-exception monad. *)

From Stdlib Require Import ZArith QArith Lia Ascii String.
From stdpp Require Import gmap strings list pretty sorting.

Local Open Scope Z_scope.
Local Open Scope string_scope.
Local Open Scope list_scope.
Local Open Scope nat_scope.

(** ** Decoded JSON values (the Python objects [json] produces) *)

Local Unset Elimination Schemes.

Inductive json : Type :=
  | JNull
  | JBool (b : bool)
  | JInt (n : Z)
  | JFloat (repr : string)             (* a float, kept as its [repr] *)
  | JStr (s : string)
  | JArr (items : list json)           (* Python list *)
  | JObj (fields : list (string * json)). (* Python dict, insertion order *)

Local Set Elimination Schemes.

(** Structural equality of decoded values is decidable. *)
Definition json_eq_dec : ∀ a b : json, {a = b} + {a ≠ b}.
Proof.
  fix IH 1.
  intros a b; destruct a, b; try (right; discriminate).
  - left; reflexivity.
  - destruct (Bool.bool_dec b0 b); [left; congruence | right; congruence].
  - destruct (Z.eq_dec n n0); [left; congruence | right; congruence].
  - destruct (String.string_dec repr repr0); [left; congruence | right; congruence].
  - destruct (String.string_dec s s0); [left; congruence | right; congruence].
  - destruct (List.list_eq_dec IH items items0);
      [left; congruence | right; congruence].
  - assert (Hp : ∀ p q : string * json, {p = q} + {p ≠ q}).
    { intros [k v] [k' v'].
      destruct (String.string_dec k k'); [| right; congruence].
      destruct (IH v v'); [left; congruence | right; congruence]. }
    destruct (List.list_eq_dec Hp fields fields0);
      [left; congruence | right; congruence].
Defined.

#[global] Instance json_eq_decision : EqDecision json := json_eq_dec.

(** ** Python exceptions and results *)

Inductive exn : Type :=
  | TypeError
  | KeyError (key : string)
  | AttributeError
  | IndexError
  | ValueError (msg : string)
  | ZeroDivisionError
  | OverflowError
  | UnicodeDecodeError
  | OSError (path : string)               (* OSError, or a subclass of it that
                                             the model does not tell apart *)
  | UnboundLocalError (name : string)     (* a subclass of NameError *)
  | FileNotFoundError (path : string)
  | EOFError
  | JSONDecodeError
  | HTTPStatusError
  | TransportError                        (* any other error of [httpx.get] *)
  | Exception (msg : string).             (* [raise Exception(...)] *)

Definition is_NameError (e : exn) : bool :=
  match e with UnboundLocalError _ => true | _ => false end.

Inductive result (A : Type) : Type :=
  | Ok (a : A)
  | Raise (e : exn).
Arguments Ok {A} a.
Arguments Raise {A} e.

Definition result_bind {A B} (r : result A) (k : A → result B) : result B :=
  match r with Ok a => k a | Raise e => Raise e end.

(** ** Python operations on decoded values *)

Fixpoint assoc (key : string) (fields : list (string * json)) : option json :=
  match fields with
  | [] => None
  | (k, v) :: rest => if decide (k = key) then Some v else assoc key rest
  end.

(** [x[key]] with a string key. *)
Definition py_getitem (x : json) (key : string) : result json :=
  match x with
  | JObj fields =>
      match assoc key fields with Some v => Ok v | None => Raise (KeyError key) end
  | _ => Raise TypeError
  end.

(** [x.get(key, default)]. *)
Definition py_get (x : json) (key : string) (default : json) : result json :=
  match x with
  | JObj fields =>
      Ok (match assoc key fields with Some v => v | None => default end)
  | _ => Raise AttributeError
  end.

(** Code points of a UTF-8 string: a new one starts at every byte that is
    not a continuation byte (10xxxxxx). *)
Definition is_continuation (a : ascii) : bool :=
  let n := nat_of_ascii a in (128 <=? n) && (n <? 192).

Fixpoint code_points_aux (cur : string) (s : string) : list string :=
  match s with
  | EmptyString => match cur with EmptyString => [] | _ => [cur] end
  | String a rest =>
      if is_continuation a then code_points_aux (cur +:+ String a EmptyString) rest
      else match cur with
           | EmptyString => code_points_aux (String a EmptyString) rest
           | _ => cur :: code_points_aux (String a EmptyString) rest
           end
  end.

Definition code_points (s : string) : list string := code_points_aux EmptyString s.

(** [for v in x]: the items of a list, the keys of a dict, the characters
    of a str. *)
Definition py_iter (x : json) : result (list json) :=
  match x with
  | JArr items => Ok items
  | JObj fields => Ok (map (λ kv, JStr (fst kv)) fields)
  | JStr s => Ok (map JStr (code_points s))
  | _ => Raise TypeError
  end.

(** [len(x)]. *)
Definition py_len (x : json) : result nat :=
  match x with
  | JArr items => Ok (length items)
  | JObj fields => Ok (length fields)
  | JStr s => Ok (length (code_points s))
  | _ => Raise TypeError
  end.

(** Truth value of [x]. *)
Definition py_bool (x : json) : bool :=
  match x with
  | JNull => false
  | JBool b => b
  | JInt n => negb (n =? 0)%Z
  | JFloat r => negb (bool_decide (r = "0.0" ∨ r = "-0.0"))
  | JStr s => negb (bool_decide (s = ""))
  | JArr items => negb (bool_decide (items = []))
  | JObj fields => negb (bool_decide (fields = []))
  end.

(** [l[:k]] on a Python sequence given as a Rocq list. *)
Definition slice_to {A} (l : list A) (k : Z) : list A :=
  if (0 <=? k)%Z then take (Z.to_nat k) l
  else take (length l - Z.to_nat (- k)) l.

(** [x[:k]]. Slicing a dict raises (TypeError up to Python 3.11). *)
Definition py_slice_to (x : json) (k : Z) : result json :=
  match x with
  | JArr items => Ok (JArr (slice_to items k))
  | JStr s => Ok (JStr (String.concat "" (slice_to (code_points s) k)))
  | _ => Raise TypeError
  end.

(** [repr] of a str. Python writes it in single quotes, or in double
    quotes when the string has a single quote and no double quote; it
    escapes the quote in use and the backslash, and writes control
    characters as escapes. Bytes above 127 are kept as they are: the
    model takes every character outside ASCII for printable. *)
Definition single_quote : ascii := ascii_of_nat 39.
Definition double_quote : ascii := ascii_of_nat 34.
Definition backslash : ascii := ascii_of_nat 92.

Fixpoint has_char (c : ascii) (s : string) : bool :=
  match s with
  | EmptyString => false
  | String a rest => bool_decide (a = c) || has_char c rest
  end.

Definition hex_digit (n : nat) : ascii :=
  ascii_of_nat (if n <? 10 then 48 + n else 87 + n).

Definition repr_char (quote c : ascii) : string :=
  let n := nat_of_ascii c in
  if bool_decide (c = quote) || bool_decide (c = backslash)
  then String backslash (String c EmptyString)
  else if n =? 9 then String backslash "t"
  else if n =? 10 then String backslash "n"
  else if n =? 13 then String backslash "r"
  else if (n <? 32) || (n =? 127)
  then String backslash
         (String "x"%char (String (hex_digit (n / 16))
                        (String (hex_digit (n mod 16)) EmptyString)))
  else String c EmptyString.

Fixpoint repr_chars (quote : ascii) (s : string) : string :=
  match s with
  | EmptyString => EmptyString
  | String c rest => repr_char quote c +:+ repr_chars quote rest
  end.

Definition repr_str (s : string) : string :=
  let quote :=
    if has_char single_quote s && negb (has_char double_quote s)
    then double_quote else single_quote in
  String quote (repr_chars quote s) +:+ String quote EmptyString.

(** [repr(x)] and [str(x)]. A float is kept as its [repr]. *)
Fixpoint py_repr (x : json) : string :=
  match x with
  | JNull => "None"
  | JBool true => "True"
  | JBool false => "False"
  | JInt n => pretty n
  | JFloat r => r
  | JStr s => repr_str s
  | JArr items => "[" +:+ String.concat ", " (map py_repr items) +:+ "]"
  | JObj fields =>
      "{" +:+ String.concat ", "
                (map (λ kv, match kv with
                            | (k, v) => repr_str k +:+ ": " +:+ py_repr v
                            end) fields) +:+ "}"
  end.

Definition py_str (x : json) : string :=
  match x with JStr s => s | _ => py_repr x end.

(** [itertools.combinations(l, 2)]: all pairs of positions [i < j], in
    lexicographic order of the positions. *)
Fixpoint combinations2 {A} (l : list A) : list (A * A) :=
  match l with
  | [] => []
  | x :: rest => map (pair x) rest ++ combinations2 rest
  end.

(** The binomial coefficient, by Pascal's rule. *)
Fixpoint choose (n k : nat) : nat :=
  match n, k with
  | _, O => 1
  | O, S _ => 0
  | S n', S k' => choose n' k' + choose n' k
  end.

(** ** The outside world *)

(** A GET request: the URL and its query parameters. *)
Record request : Type := { url : string; params : list (string * string) }.

(** What one GET request leads to, as far as [get_api_data] can tell. *)
Inductive http_outcome : Type :=
  | NoResponse            (* [httpx.get] raises a transport error *)
  | BadStatus             (* [raise_for_status] raises [HTTPStatusError] *)
  | BadBody               (* [response.json()] raises [JSONDecodeError] *)
  | Body (data : json)    (* a success status and a JSON body *)
  | Fails (e : exn).      (* [httpx.get] or [response.json()] raises [e]: a
                             body that is not UTF-8 raises
                             [UnicodeDecodeError], for one *)

(** The parts of the world the program only reads: the upstream API, the
    time a request takes (microseconds), and the path algebra of the
    operating system. *)
Record environment : Type := {
  respond : request → http_outcome;
  latency : request → Z;
  parent_dir : string → string;      (* [os.path.dirname(os.path.abspath(p))] *)
  ancestors : string → list string;  (* the directories above a directory *)
  writable : string → bool;          (* the operating system lets the program
                                        create or replace the file, once its
                                        directory exists: the path names no
                                        directory, and the rights are there *)
}.

(** A row of the weighted edge table. *)
Record edge : Type := { Source : json; Target : json; Weight : nat }.

(** The content of a file, kept as the value that was serialised into it. *)
Inductive file_content : Type :=
  | FCsv (rows : list edge)     (* written by [DataFrame.to_csv] *)
  | FJson (text : json)         (* written by [json.dump]; a JSON text may
                                   repeat a key inside an object *)
  | FText (text : string).      (* written by [f.write] *)

(** The parts of the world the program changes. Times are microseconds,
    the resolution of [datetime]. Standard output is not part of it:
    [print] is a no-op in this model. *)
Record state : Type := {
  clock : Z;
  requests : list request;            (* GET requests sent, latest first *)
  dirs : gset string;                 (* existing directories *)
  files : gmap string file_content;
  stdin : list string;                (* lines the user will type *)
}.

Definition set_clock (t : Z) (s : state) : state :=
  {| clock := t; requests := requests s; dirs := dirs s;
     files := files s; stdin := stdin s |}.
Definition set_requests (r : list request) (s : state) : state :=
  {| clock := clock s; requests := r; dirs := dirs s;
     files := files s; stdin := stdin s |}.
Definition set_dirs (d : gset string) (s : state) : state :=
  {| clock := clock s; requests := requests s; dirs := d;
     files := files s; stdin := stdin s |}.
Definition set_files (f : gmap string file_content) (s : state) : state :=
  {| clock := clock s; requests := requests s; dirs := dirs s;
     files := f; stdin := stdin s |}.
Definition set_stdin (i : list string) (s : state) : state :=
  {| clock := clock s; requests := requests s; dirs := dirs s;
     files := files s; stdin := i |}.

(** ** A monad for state and exceptions

    A computation takes the state and gives a result, normal or
    exceptional, with the state it leaves behind: what was done before an
    exception stays done. *)

Definition M (A : Type) : Type := state → result A * state.

Definition ret {A} (a : A) : M A := λ s, (Ok a, s).
Definition raise {A} (e : exn) : M A := λ s, (Raise e, s).
Definition bind {A B} (m : M A) (k : A → M B) : M B :=
  λ s, match m s with
       | (Ok a, s') => k a s'
       | (Raise e, s') => (Raise e, s')
       end.
Definition lift {A} (r : result A) : M A := λ s, (r, s).

(** [try: m  except ... as e: handler e]. Every exception of the model
    is an instance of [Exception]; a handler re-raises the exceptions
    that its [except] clauses do not name. *)
Definition try_except {A} (m : M A) (handler : exn → M A) : M A :=
  λ s, match m s with
       | (Ok a, s') => (Ok a, s')
       | (Raise e, s') => handler e s'
       end.

Notation "'let*' x := m 'in' k" := (bind m (λ x, k))
  (at level 10, x name, m at level 100, k at level 200).
Notation "'let*' ' pat := m 'in' k" := (bind m (λ x, match x with pat => k end))
  (at level 10, pat pattern, m at level 100, k at level 200).
Notation "m ;; k" := (bind m (λ _, k))
  (at level 100, k at level 200, right associativity).

(** [print(text)]. *)
Definition print (text : string) : M unit := ret tt.

(** [datetime.now()] and [time.sleep]. *)
Definition datetime_now : M Z := λ s, (Ok (clock s), s).
Definition time_sleep (duration : Z) : M unit :=
  λ s, (Ok tt, set_clock (clock s + duration)%Z s).

(** [httpx.get(url, params=params)] up to the decoded body. *)
Definition http_get (env : environment) (rq : request) : M http_outcome :=
  λ s, (Ok (respond env rq),
        set_requests (rq :: requests s)
          (set_clock (clock s + latency env rq)%Z s)).

(** [input(prompt)]. *)
Definition input (prompt : string) : M string :=
  λ s, match stdin s with
       | [] => (Raise EOFError, s)
       | line :: rest => (Ok line, set_stdin rest s)
       end.

Definition path_exists (d : string) : M bool :=
  λ s, (Ok (bool_decide (d ∈ dirs s)), s).

(** [os.makedirs(d, exist_ok=True)]. *)
Definition makedirs (env : environment) (d : string) : M unit :=
  λ s, (Ok tt, set_dirs (dirs s ∪ {[d]} ∪ list_to_set (ancestors env d)) s).

(** [open(path, "w")] and the write that follows: the content replaces
    what the path held. Opening raises FileNotFoundError for the empty
    path and for a path whose directory does not exist, and another
    OSError (IsADirectoryError, PermissionError) where the operating
    system refuses the path. *)
Definition write_file (env : environment) (path : string)
    (content : file_content) : M unit :=
  λ s, if bool_decide (path = "") || negb (bool_decide (parent_dir env path ∈ dirs s))
       then (Raise (FileNotFoundError path), s)
       else if negb (writable env path) then (Raise (OSError path), s)
       else (Ok tt, set_files (<[path := content]> (files s)) s).

(** [df.to_csv(path, index=False)]: pandas looks for the directory before
    it opens the file and raises OSError when it is missing (releases
    before 1.3 leave that to [open], which raises FileNotFoundError, a
    subclass); the file is then opened as by [open(path, "w")]. *)
Definition to_csv (env : environment) (path : string) (rows : list edge)
  : M unit :=
  λ s, if bool_decide (path = "") then (Raise (FileNotFoundError path), s)
       else if negb (bool_decide (parent_dir env path ∈ dirs s))
            || negb (writable env path)
       then (Raise (OSError path), s)
       else (Ok tt, set_files (<[path := FCsv rows]> (files s)) s).

(** The dict that decoding the members of a JSON object builds: a key
    that comes again replaces the value and keeps its place. *)
Definition dict_put (d : list (string * json)) (kv : string * json)
  : list (string * json) :=
  if bool_decide (fst kv ∈ map fst d)
  then map (λ kv', if decide (fst kv' = fst kv) then kv else kv') d
  else d ++ [kv].

Definition dict_of_pairs (pairs : list (string * json)) : list (string * json) :=
  foldl dict_put [] pairs.

(** [json.loads] of a JSON text. *)
Fixpoint json_loads (text : json) : json :=
  match text with
  | JArr items => JArr (map json_loads items)
  | JObj fields =>
      JObj (dict_of_pairs
              (map (λ kv, match kv with (k, v) => (k, json_loads v) end) fields))
  | _ => text
  end.

(** [json.load(open(path))]. *)
Definition json_load (path : string) : M json :=
  λ s, match files s !! path with
       | None => (Raise (FileNotFoundError path), s)
       | Some (FJson text) => (Ok (json_loads text), s)
       | Some _ => (Raise JSONDecodeError, s)
       end.

(** ** collectData.py *)

(** *** class RateLimiter *)

(** [calls_made] is the deque, oldest call first. [minimum_interval] is
    written by the constructor and never read; it is kept in seconds,
    before [timedelta] rounds it to microseconds. *)
Record RateLimiter : Type := {
  calls_per_second : Q;
  minimum_interval : Q;
  calls_made : list Z;
}.

Definition one_second : Z := 1000000%Z.

(** Rounding to the nearest integer, halves to the even one. *)
Definition round_half_even (q : Q) : Z :=
  let floor := (Qnum q / Zpos (Qden q))%Z in
  let twice_rest := (2 * (Qnum q - floor * Zpos (Qden q)))%Z in
  match (twice_rest ?= Zpos (Qden q))%Z with
  | Lt => floor
  | Gt => (floor + 1)%Z
  | Eq => if Z.even floor then floor else (floor + 1)%Z
  end.

(** [timedelta(seconds=x)], in microseconds: a [timedelta] holds between
    -999999999 days and 999999999 days, 23:59:59.999999; outside of it
    the constructor raises OverflowError. *)
Definition timedelta_seconds (seconds : Q) : result Z :=
  let microseconds := round_half_even (seconds * inject_Z one_second) in
  if (microseconds <? -999999999 * 86400 * one_second)%Z
     || (1000000000 * 86400 * one_second <=? microseconds)%Z
  then Raise OverflowError
  else Ok microseconds.

(** [RateLimiter(calls_per_second)]. The rate is a rational number: the
    rounding of the float division, and the floats [nan] and [inf], are
    not modelled. *)
Definition RateLimiter_init (calls_per_second : Q) : result RateLimiter :=
  if Qeq_bool calls_per_second 0 then Raise ZeroDivisionError
  else
    result_bind (timedelta_seconds (Qinv calls_per_second)) (λ _,
      Ok {| calls_per_second := calls_per_second;
            minimum_interval := Qinv calls_per_second;
            calls_made := [] |}).

(** The [while] loop of [wait_if_necessary]: [popleft] as long as the
    oldest call is more than one second old. *)
Fixpoint drop_expired (now : Z) (calls_made : list Z) : list Z :=
  match calls_made with
  | [] => []
  | oldest :: rest =>
      if (one_second <? now - oldest)%Z then drop_expired now rest
      else calls_made
  end.

Definition wait_if_necessary (self : RateLimiter) : M RateLimiter :=
  let* now := datetime_now in
  let calls_made := drop_expired now (calls_made self) in
  (if Qle_bool (calls_per_second self) (inject_Z (Z.of_nat (length calls_made)))
   then match calls_made with
        | [] => raise IndexError            (* [self.calls_made[0]] *)
        | oldest :: _ =>
            let sleep_time := (oldest + one_second - now)%Z in
            if (0 <? sleep_time)%Z then time_sleep sleep_time else ret tt
        end
   else ret tt) ;;
  ret {| calls_per_second := calls_per_second self;
         minimum_interval := minimum_interval self;
         calls_made := calls_made ++ [now] |}.

(** *** validate_paths *)

Definition validate_path (env : environment) (filepath : option string) : M unit :=
  match filepath with
  | None => raise TypeError                 (* [os.path.abspath(None)] *)
  | Some p =>
      let get_dir_abspath := parent_dir env p in
      let* found := path_exists get_dir_abspath in
      if found then ret tt
      else
        let* user_validation := input "Directory does not exist. Create it? (y/n)" in
        if bool_decide (user_validation = "y" ∨ user_validation = "Y")
        then makedirs env get_dir_abspath
        else raise (FileNotFoundError get_dir_abspath)
  end.

Fixpoint validate_paths (env : environment) (filepaths : list (option string))
  : M unit :=
  match filepaths with
  | [] => ret tt
  | filepath :: rest => validate_path env filepath ;; validate_paths env rest
  end.

(** *** get_api_data *)

Definition get_api_data (env : environment) (endpoint : string)
    (params : option (list (string * string))) : M json :=
  let params := default [] params in
  try_except
    (let* response := http_get env {| url := endpoint; params := params |} in
     match response with
     | NoResponse => raise TransportError      (* [httpx.get] *)
     | BadStatus => raise HTTPStatusError      (* [response.raise_for_status()] *)
     | BadBody => raise JSONDecodeError        (* [response.json()] *)
     | Body data => ret data
     | Fails e => raise e
     end)
    (λ e, match e with
          | HTTPStatusError => raise (Exception "HTTP request failed")
          | JSONDecodeError => raise (Exception "Failed to decode JSON response")
          | _ => raise e
          end).

(** *** get_terms_from_endpoint *)

(** The list comprehension [[f(v) for v in items]]: it stops at the first
    exception. *)
Fixpoint comprehension {A B} (f : A → result B) (items : list A) : result (list B) :=
  match items with
  | [] => Ok []
  | v :: rest =>
      result_bind (f v) (λ w,
      result_bind (comprehension f rest) (λ ws, Ok (w :: ws)))
  end.

(** The dict [{"Source": pair[0], "Target": pair[1]}]. *)
Definition pair_dict (pair : json * json) : json :=
  JObj [("Source", fst pair); ("Target", snd pair)].

(** The body of the [try] once the response is decoded. The result is
    [None] where the function falls off its end. *)
Definition terms_of_data (data : json) (return_full_list : bool)
  : result (option (list json)) :=
  result_bind (py_getitem data "tags") (λ data,
  result_bind (py_iter data) (λ tags,
  result_bind (comprehension (λ tag, py_getitem tag "term") tags) (λ terms,
    if return_full_list then Ok (Some terms)
    else if 1 <? length terms
         then Ok (Some (map pair_dict (combinations2 terms)))
         else Ok None))).

Definition get_terms_from_endpoint (env : environment) (endpoint : string)
    (objectID : string) (return_full_list : bool) : M (option (list json)) :=
  try_except
    (let endpoint := endpoint +:+ "/" +:+ objectID in
     let* data := get_api_data env endpoint None in
     lift (terms_of_data data return_full_list))
    (λ e, match e with
          | KeyError _ => print "KeyError for objectID" ;; raise e
          | TypeError => print "TypeError for objectID" ;; raise e
          | _ => raise e
          end).

(** *** process_object_terms *)

Definition process_object_terms (env : environment) (object_endpoint : string)
    (objectID : json) (return_full_list verbose : bool) : M (list json * bool) :=
  try_except
    (let* object_terms :=
       get_terms_from_endpoint env object_endpoint (py_str objectID)
         return_full_list in
     match object_terms with
     | Some (t :: ts) =>
         (if verbose then print "terms" else ret tt) ;;
         ret (t :: ts, true)
     | _ => ret ([], false)
     end)
    (λ e, (if verbose then print "Failed to process objectID" else ret tt) ;;
          ret ([], false)).

(** *** The accumulated result *)

(** A Python dict keyed by object IDs, in insertion order. Keys are
    compared structurally, which is Python's equality on the integers and
    strings that identify objects (Python also takes [1], [1.0] and [True]
    for one key). *)
Definition pydict : Type := list (json * json).

Definition hashable (key : json) : bool :=
  match key with JArr _ | JObj _ => false | _ => true end.

Fixpoint dict_update (d : pydict) (key value : json) : pydict :=
  match d with
  | [] => [(key, value)]
  | (k, v) :: rest =>
      if decide (k = key) then (k, value) :: rest
      else (k, v) :: dict_update rest key value
  end.

(** [d[key] = value]. *)
Definition dict_setitem (d : pydict) (key value : json) : result pydict :=
  if hashable key then Ok (dict_update d key value) else Raise TypeError.

(** What a batch accumulates: a list ([terms], or the [[]] of an empty
    run) or a dict ([terms_dict]). *)
Inductive batch_result : Type :=
  | ResList (items : list json)
  | ResDict (d : pydict).

Definition batch_len (terms : batch_result) : nat :=
  match terms with ResList items => length items | ResDict d => length d end.

(** *** save_results *)

(** The key [json.dump] writes for a dict key (a dict has no list or
    dict among its keys). *)
Definition json_key (key : json) : string :=
  match key with
  | JStr s => s
  | JInt n => pretty n
  | JFloat r => r
  | JBool true => "true"
  | JBool false => "false"
  | _ => "null"
  end.

(** The JSON text [json.dump(terms, f)] writes. *)
Definition json_dump (terms : batch_result) : json :=
  match terms with
  | ResList items => JArr items
  | ResDict d => JObj (map (λ kv, (json_key (fst kv), snd kv)) d)
  end.

(** [pd.DataFrame(records)] for records that are dicts with the keys
    [Source] and [Target], as rows of two cells. Frames of other shapes
    are not built by this program; the model raises for them. *)
Definition DataFrame (records : list json) : result (list (json * json)) :=
  comprehension
    (λ r, result_bind (py_getitem r "Source") (λ a,
          result_bind (py_getitem r "Target") (λ b, Ok (a, b))))
    records.

(** The order of group keys: by [Source], then by [Target]; str cells by
    code point, which is byte order in UTF-8. Cells that are not strings
    are left in the order they come. *)
Definition cell_leb (a b : json) : bool :=
  match a, b with
  | JStr x, JStr y => String.leb x y
  | _, _ => true
  end.

Definition key_leb (k k' : json * json) : bool :=
  if decide (fst k = fst k') then cell_leb (snd k) (snd k')
  else cell_leb (fst k) (fst k').

Fixpoint insert_key (k : json * json) (sorted : list (json * json))
  : list (json * json) :=
  match sorted with
  | [] => [k]
  | k' :: rest =>
      if key_leb k k' then k :: sorted else k' :: insert_key k rest
  end.

Definition sort_keys (keys : list (json * json)) : list (json * json) :=
  foldr insert_key [] keys.

Definition occurrences (k : json * json) (rows : list (json * json)) : nat :=
  length (filter (λ r, r = k) rows).

(** The groups of rows with the same two cells, in the order of their
    keys, each with its size: what
    [df.groupby(["Source", "Target"]).size().reset_index(name="Weight")]
    gives on a frame without missing or unhashable cells. *)
Definition groupby_size (rows : list (json * json)) : list edge :=
  map (λ k, {| Source := fst k; Target := snd k; Weight := occurrences k rows |})
      (sort_keys (remove_dups rows)).

(** A cell that pandas takes for missing: [None] and the float [nan]. *)
Definition null_cell (cell : json) : bool :=
  match cell with
  | JNull => true
  | JFloat r => bool_decide (r = "nan")
  | _ => false
  end.

(** [df.groupby(["Source", "Target"]).size().reset_index(name="Weight")]
    on the frame of pairs. Grouping hashes every cell and raises
    TypeError for a list or a dict; rows with a missing key are dropped
    ([dropna]); the groups of the other rows are counted by
    [groupby_size]. This is exact for cells that are strings, null,
    lists or dicts. Numbers and booleans are compared structurally and
    left in their order here, where pandas compares them by value. *)
Definition groupby_weight (rows : list (json * json)) : result (list edge) :=
  if forallb (λ r, hashable (fst r) && hashable (snd r)) rows
  then Ok (groupby_size
             (List.filter (λ r, negb (null_cell (fst r)) && negb (null_cell (snd r)))
                rows))
  else Raise TypeError.

Definition truthy_path (p : option string) : bool :=
  match p with Some s => negb (bool_decide (s = "")) | None => false end.

Definition newline : string := String (ascii_of_nat 10) EmptyString.

Definition report_text (total_objects terms_len none_count : nat) : string :=
  "Total objects: " +:+ pretty total_objects +:+ newline +:+
  "Total terms: " +:+ pretty terms_len +:+ newline +:+
  "Failed requests: " +:+ pretty none_count.

(** The frame [save_results] builds from [terms]. A dict is only passed
    together with [return_full_list=True], which skips the frame. *)
Definition frame_records (terms : batch_result) : result (list json) :=
  match terms with
  | ResList items => Ok items
  | ResDict [] => Ok []
  | ResDict _ => Raise (KeyError "Source")
  end.

(** The three blocks of [save_results]: [if save_csv and not
    return_full_list], [if save_file] and [if report]. *)
Definition save_edge_table (env : environment) (terms : batch_result)
    (save_csv : option string) (return_full_list : bool) : M unit :=
  match save_csv with
  | Some csv_path =>
      if truthy_path save_csv && negb return_full_list then
        let* records := lift (frame_records terms) in
        let* df := lift (DataFrame records) in
        if negb (bool_decide (df = []))
        then
          let* df := lift (groupby_weight df) in
          to_csv env csv_path df
        else ret tt
      else ret tt
  | None => ret tt
  end.

Definition save_dump (env : environment) (terms : batch_result)
    (save_file : option string) : M unit :=
  match save_file with
  | Some json_path =>
      if truthy_path save_file
      then write_file env json_path (FJson (json_dump terms))
      else ret tt
  | None => ret tt
  end.

Definition save_report (env : environment) (terms : batch_result)
    (report : bool) (report_file : string) (total_objects none_count : nat)
  : M unit :=
  if report
  then write_file env report_file
         (FText (report_text total_objects (batch_len terms) none_count))
  else ret tt.

Definition save_results (env : environment) (terms : batch_result)
    (save_csv save_file : option string)
    (report : bool) (report_file : string) (total_objects none_count : nat)
    (return_full_list : bool) : M unit :=
  save_edge_table env terms save_csv return_full_list ;;
  save_dump env terms save_file ;;
  save_report env terms report report_file total_objects none_count.

(** *** get_object_ids *)

Definition get_object_ids (env : environment) (collection_endpoint : string)
    (collection_params : option (list (string * string))) (limit : option Z)
  : M json :=
  let collection_params := default [] collection_params in
  let* data := get_api_data env collection_endpoint (Some collection_params) in
  let* objectIDs := lift (py_get data "objectIDs" (JArr [])) in
  match limit with
  | Some k =>
      if (k =? 0)%Z then ret objectIDs else lift (py_slice_to objectIDs k)
  | None => ret objectIDs
  end.

(** *** get_terms_from_collection *)

(** The [for] loop of [get_terms_from_collection]. *)
Fixpoint collection_loop (env : environment) (object_endpoint : string)
    (verbose : bool) (objectIDs : list json) (rate_limiter : RateLimiter)
    (terms_dict : pydict) (none_count : nat) : M (pydict * nat) :=
  match objectIDs with
  | [] => ret (terms_dict, none_count)
  | objectID :: rest =>
      let* rate_limiter := wait_if_necessary rate_limiter in
      let* '(object_terms, success) :=
        process_object_terms env object_endpoint objectID true verbose in
      if success : bool then
        let* terms_dict :=
          lift (dict_setitem terms_dict objectID (JArr object_terms)) in
        collection_loop env object_endpoint verbose rest rate_limiter
          terms_dict none_count
      else
        collection_loop env object_endpoint verbose rest rate_limiter
          terms_dict (S none_count)
  end.

Definition get_terms_from_collection (env : environment)
    (collection_endpoint : string)
    (collection_params : option (list (string * string)))
    (object_endpoint : option string) (report : bool) (report_file : string)
    (save_file save_csv : option string) (verbose : bool) (limit : option Z)
  : M (batch_result * nat) :=
  validate_paths env [save_file; save_csv; Some report_file] ;;
  match object_endpoint with
  | Some endpoint =>
      if bool_decide (endpoint = "")
      then raise (ValueError "object_endpoint must be provided")
      else
        let* rate_limiter := lift (RateLimiter_init 2) in
        let* objectIDs :=
          get_object_ids env collection_endpoint collection_params limit in
        if negb (py_bool objectIDs) then ret (ResList [], 0)
        else
          let* ids := lift (py_iter objectIDs) in
          let* '(terms_dict, none_count) :=
            collection_loop env endpoint verbose ids rate_limiter [] 0 in
          let* total_objects := lift (py_len objectIDs) in
          save_results env (ResDict terms_dict) save_csv save_file report
            report_file total_objects none_count true ;;
          ret (ResDict terms_dict, none_count)
  | None => raise (ValueError "object_endpoint must be provided")
  end.

(** *** get_terms_pairs *)

(** The [for] loop of [get_terms_pairs]. *)
Fixpoint pairs_loop (env : environment) (object_endpoint : string)
    (return_full_list verbose : bool) (objectIDs : list json)
    (rate_limiter : RateLimiter) (terms : list json) (none_count : nat)
  : M (list json * nat) :=
  match objectIDs with
  | [] => ret (terms, none_count)
  | objectID :: rest =>
      let* rate_limiter := wait_if_necessary rate_limiter in
      let* '(object_terms, success) :=
        process_object_terms env object_endpoint objectID return_full_list
          verbose in
      if success : bool then
        pairs_loop env object_endpoint return_full_list verbose rest
          rate_limiter (terms ++ object_terms) none_count
      else
        pairs_loop env object_endpoint return_full_list verbose rest
          rate_limiter terms (S none_count)
  end.

Definition get_terms_pairs (env : environment)
    (collection_endpoint : string)
    (collection_params : option (list (string * string)))
    (object_endpoint : option string) (report : bool) (report_file : string)
    (save_file save_csv : option string) (verbose return_full_list : bool)
    (limit : option Z) : M (batch_result * nat) :=
  validate_paths env [save_file; save_csv; Some report_file] ;;
  match object_endpoint with
  | Some endpoint =>
      if bool_decide (endpoint = "")
      then raise (ValueError "object_endpoint must be provided")
      else
        let* rate_limiter := lift (RateLimiter_init 2) in
        let* objectIDs :=
          get_object_ids env collection_endpoint collection_params limit in
        if negb (py_bool objectIDs) then ret (ResList [], 0)
        else
          let* ids := lift (py_iter objectIDs) in
          let* '(terms, none_count) :=
            pairs_loop env endpoint return_full_list verbose ids rate_limiter
              [] 0 in
          let* total_objects := lift (py_len objectIDs) in
          save_results env (ResList terms) save_csv save_file report
            report_file total_objects none_count return_full_list ;;
          ret (ResList terms, none_count)
  | None => raise (ValueError "object_endpoint must be provided")
  end.

(** ** termsFromRawData.py *)

(** [x.items()]. *)
Definition py_items (x : json) : result (list (string * json)) :=
  match x with
  | JObj fields => Ok fields
  | _ => Raise AttributeError
  end.

(** The [for] loop of [create_term_pairs]. *)
Fixpoint pairs_of_items (items : list (string * json)) (terms_list : list json)
  : result (list json) :=
  match items with
  | [] => Ok terms_list
  | (objectID, terms) :: rest =>
      result_bind (py_len terms) (λ n,
        if 1 <? n then
          result_bind (py_iter terms) (λ ts,
            pairs_of_items rest
              (terms_list ++ map pair_dict (combinations2 ts)))
        else pairs_of_items rest terms_list)
  end.

(** The value of the local variable [df]: the frame of pairs, or the
    grouped frame that replaces it. *)
Inductive frame : Type :=
  | PairFrame (rows : list (json * json))
  | EdgeFrame (rows : list edge).

Definition create_term_pairs (env : environment)
    (raw_terms_file processed_terms_file : string) : M frame :=
  let* raw_terms_df := json_load raw_terms_file in
  let* items := lift (py_items raw_terms_df) in
  let* terms_list := lift (pairs_of_items items []) in
  if 0 <? length terms_list then
    let* df := lift (DataFrame terms_list) in
    if negb (bool_decide (df = [])) then
      let* df := lift (groupby_weight df) in
      to_csv env processed_terms_file df ;;
      ret (EdgeFrame df)
    else ret (PairFrame df)
  else raise (UnboundLocalError "df").   (* [return df], [df] never bound *)

(** ** A caller of the rate limiter

    [issue_calls limiter gaps] makes one call of [wait_if_necessary] per
    element of [gaps], after working for that many microseconds, and
    gives the times at which the calls were let through. *)
Fixpoint issue_calls (limiter : RateLimiter) (gaps : list Z) : M (list Z) :=
  match gaps with
  | [] => ret []
  | gap :: rest =>
      time_sleep gap ;;
      let* limiter := wait_if_necessary limiter in
      let* released := datetime_now in
      let* later := issue_calls limiter rest in
      ret (released :: later)
  end.

(** ** What a run computes, apart from its effects

    The upstream answers do not depend on the state, so the value of a
    fetch is a function of the environment alone. These definitions name
    those values; the lemmas below show that the program computes them. *)

Definition object_request (object_endpoint : string) (objectID : string) : request :=
  {| url := object_endpoint +:+ "/" +:+ objectID; params := [] |}.

Definition fetch (env : environment) (rq : request) : result json :=
  match respond env rq with
  | NoResponse => Raise TransportError
  | BadStatus => Raise (Exception "HTTP request failed")
  | BadBody => Raise (Exception "Failed to decode JSON response")
  | Body data => Ok data
  | Fails HTTPStatusError => Raise (Exception "HTTP request failed")
  | Fails JSONDecodeError => Raise (Exception "Failed to decode JSON response")
  | Fails e => Raise e
  end.

Definition fetch_terms (env : environment) (object_endpoint objectID : string)
    (return_full_list : bool) : result (option (list json)) :=
  result_bind (fetch env (object_request object_endpoint objectID))
    (λ data, terms_of_data data return_full_list).

Definition object_result (env : environment) (object_endpoint : string)
    (objectID : json) (return_full_list : bool) : list json * bool :=
  match fetch_terms env object_endpoint (py_str objectID) return_full_list with
  | Ok (Some (t :: ts)) => (t :: ts, true)
  | _ => ([], false)
  end.

Definition succeeds (env : environment) (object_endpoint : string)
    (return_full_list : bool) (objectID : json) : bool :=
  snd (object_result env object_endpoint objectID return_full_list).

(** The object IDs that are accumulated, and those that are counted as
    failed. *)
Definition successful (env : environment) (object_endpoint : string)
    (return_full_list : bool) (objectIDs : list json) : list json :=
  List.filter (succeeds env object_endpoint return_full_list) objectIDs.

Definition failed (env : environment) (object_endpoint : string)
    (return_full_list : bool) (objectIDs : list json) : list json :=
  List.filter (λ id, negb (succeeds env object_endpoint return_full_list id))
    objectIDs.

(** The state after a GET request was sent. *)
Definition sent (env : environment) (rq : request) (s : state) : state :=
  set_requests (rq :: requests s) (set_clock (clock s + latency env rq)%Z s).

(** What [get_object_ids] returns. *)
Definition collection_request (collection_endpoint : string)
    (collection_params : option (list (string * string))) : request :=
  {| url := collection_endpoint; params := default [] collection_params |}.

Definition listed_object_ids (env : environment) (collection_endpoint : string)
    (collection_params : option (list (string * string))) (limit : option Z)
  : result json :=
  result_bind (fetch env (collection_request collection_endpoint collection_params))
    (λ data,
  result_bind (py_get data "objectIDs" (JArr [])) (λ objectIDs,
    match limit with
    | Some k => if (k =? 0)%Z then Ok objectIDs else py_slice_to objectIDs k
    | None => Ok objectIDs
    end)).

(** An object identifier: an integer or a string. *)
Definition is_identifier (objectID : json) : Prop :=
  match objectID with JInt _ | JStr _ => True | _ => False end.

Definition is_str (v : json) : Prop :=
  match v with JStr _ => True | _ => False end.

(** Two states with the same file system and keyboard input: they may
    differ in the clock and in the requests sent. *)
Definition same_disk (s s' : state) : Prop :=
  dirs s' = dirs s ∧ files s' = files s ∧ stdin s' = stdin s.

(** Two states that differ at most in the clock, the directories and the
    keyboard input. *)
Definition same_traffic (s s' : state) : Prop :=
  requests s' = requests s ∧ files s' = files s.

(** Two states that differ at most in the files. *)
Definition same_but_files (s s' : state) : Prop :=
  requests s' = requests s ∧ dirs s' = dirs s ∧ stdin s' = stdin s ∧
  clock s' = clock s.

(** A path that can be written in a state: it has a name, its directory
    exists, and the operating system lets the program write it. *)
Definition can_write (env : environment) (s : state) (path : string) : Prop :=
  path ≠ "" ∧ parent_dir env path ∈ dirs s ∧ writable env path = true.

(** The operating system lets a batch write its destinations, and the
    report, if one is asked for, has a name. *)
Definition destinations_writable (env : environment)
    (save_file save_csv : option string) (report : bool) (report_file : string)
  : Prop :=
  (∀ p, save_file = Some p → writable env p = true) ∧
  (∀ p, save_csv = Some p → writable env p = true) ∧
  (report = true → report_file ≠ "" ∧ writable env report_file = true).

(** A row of the frame of pairs whose two cells are strings. *)
Definition str_cells (row : json * json) : Prop :=
  is_str (fst row) ∧ is_str (snd row).

(** The number of calls released in the second that ends at [t]. *)
Definition released_in_window (t : Z) (released : list Z) : nat :=
  length (List.filter (λ x, (t - one_second <? x)%Z && (x <=? t)%Z) released).

(** A concrete world: two objects with the same two terms in opposite
    orders, one object with a single term, one whose [tags] is null. *)
Definition demo_base : string := "https://api.example/objects".

Definition tags_body (terms : list string) : json :=
  JObj [("objectID", JInt 0);
        ("tags", JArr (map (λ t, JObj [("term", JStr t)]) terms))].

Definition demo_env : environment := {|
  respond := λ rq,
    if decide (url rq = demo_base) then
      Body (JObj [("total", JInt 4);
                  ("objectIDs", JArr [JInt 1; JInt 2; JInt 3; JInt 4])])
    else if decide (url rq = demo_base +:+ "/1") then
      Body (tags_body ["Angels"; "Saints"])
    else if decide (url rq = demo_base +:+ "/2") then
      Body (tags_body ["Saints"; "Angels"])
    else if decide (url rq = demo_base +:+ "/3") then
      Body (tags_body ["Crosses"])
    else if decide (url rq = demo_base +:+ "/4") then
      Body (JObj [("objectID", JInt 4); ("tags", JNull)])
    else BadStatus;
  latency := λ _, 1000%Z;
  parent_dir := λ p, if decide (p = "report.txt") then "/work" else "/work/data";
  ancestors := λ d, if decide (d = "/work/data") then ["/work"; "/"] else ["/"];
  writable := λ _, true;
|}.

(** The working directory exists, [data] does not; the user will
    answer [y]. *)
Definition demo_state : state := {|
  clock := 0;
  requests := [];
  dirs := {["/"; "/work"]};
  files := ∅;
  stdin := ["y"];
|}.



(** The cells of a pair of terms. *)
Definition str_row (pair : string * string) : json * json :=
  (JStr (fst pair), JStr (snd pair)).

(** A raw dump in which no object has two terms. *)
Definition lonely_dump : json :=
  JObj [("3", JArr [JStr "Crosses"]); ("5", JArr [])].

Definition lonely_state : state := {|
  clock := 0;
  requests := [];
  dirs := {["/"; "/work"; "/work/data"]};
  files := {["data/raw.json" := FJson lonely_dump]};
  stdin := [];
|}.


(** A list of at most one term. *)
Definition short_list (v : json) : Prop :=
  ∃ terms, v = JArr terms ∧ length terms ≤ 1.

(** What the two loops accumulate. *)
Definition accumulated_terms (env : environment) (object_endpoint : string)
    (return_full_list : bool) (objectIDs : list json) : list json :=
  flat_map (λ id, fst (object_result env object_endpoint id return_full_list))
    (successful env object_endpoint return_full_list objectIDs).

Definition accumulated_dict (env : environment) (object_endpoint : string)
    (d : pydict) (objectIDs : list json) : pydict :=
  foldl (λ d id,
           dict_update d id (JArr (fst (object_result env object_endpoint id true))))
    d (successful env object_endpoint true objectIDs).

(** The pairs of terms of one object. *)
Definition object_pairs (env : environment) (object_endpoint : string)
    (objectID : json) : list (json * json) :=
  match fetch_terms env object_endpoint (py_str objectID) true with
  | Ok (Some terms) => if 1 <? length terms then combinations2 terms else []
  | _ => []
  end.

(** The requests of a loop over [objectIDs], latest first. *)
Definition object_requests (object_endpoint : string) (objectIDs : list json)
  : list request :=
  map (λ id, object_request object_endpoint (py_str id)) (reverse objectIDs).


(** The limiter the batch functions build: [RateLimiter(calls_per_second=2.0)]. *)
Definition fresh_limiter : RateLimiter :=
  {| calls_per_second := 2; minimum_interval := Qinv 2; calls_made := [] |}.



(** The object IDs of the demo world, and the two runs over it: the raw
    batch with a dump, the pairs batch with an edge table. *)
Definition demo_ids : list json := [JInt 1; JInt 2; JInt 3; JInt 4].




(** The times at which calls enter the limiter when none of them is
    delayed: each call follows the previous one by its gap. *)
Fixpoint entry_times (start : Z) (gaps : list Z) : list Z :=
  match gaps with
  | [] => []
  | gap :: rest => (start + gap)%Z :: entry_times (start + gap)%Z rest
  end.

Definition is_int (v : json) : Prop :=
  match v with JInt _ => True | _ => False end.


(** ** collectRawData.py, collectTermPairs.py and the main of
    termsFromRawData.py *)

Definition met_objects : string :=
  "https://collectionapi.metmuseum.org/public/collection/v1/objects".

Definition collectRawData (env : environment) : M (batch_result * nat) :=
  get_terms_from_collection env met_objects (Some [("departmentIds", "17")])
    (Some met_objects) true "data/raw/raw_medieval_art_tags_report.txt"
    (Some "data/raw/raw_medieval_art_tags.json") None true None.

Definition collectTermPairs (env : environment) : M (batch_result * nat) :=
  get_terms_pairs env met_objects (Some [("departmentIds", "17")])
    (Some met_objects) true
    "data/processed/processed_medieval_art_tags_pairs_report.txt"
    (Some "data/processed/processed_medieval_art_tags_pairs.json")
    (Some "data/processed/processed_medieval_art_tags_pairs.csv")
    true false (Some 30%Z).

Definition termsFromRawData_main (env : environment) : M frame :=
  create_term_pairs env "data/raw/raw_medieval_art_tags.json"
    "data/processed/processed_medieval_art_tags_pairs.csv".

(** The JSON mapping of object keys to lists of string terms. *)
Definition mapping_json (mapping : list (string * list string)) : json :=
  JObj (map (λ kv, (fst kv, JArr (map JStr (snd kv)))) mapping).

(** A limiter that already recorded two calls, and a state two
    milliseconds after the first of them. *)
Definition busy_limiter : RateLimiter :=
  {| calls_per_second := 2; minimum_interval := Qinv 2;
     calls_made := [0; 1000]%Z |}.

Definition busy_state : state := set_clock 2000 lonely_state.


(** A world for the two scripts: the Met endpoint lists forty objects,
    each with the same two tags; every path lies in an existing
    directory. *)
Definition met_env : environment := {|
  respond := λ rq,
    if decide (url rq = met_objects) then
      Body (JObj [("total", JInt 40);
                  ("objectIDs", JArr (map (λ n, JInt (Z.of_nat n)) (seq 1 40)))])
    else Body (tags_body ["Angels"; "Saints"]);
  latency := λ _, 1000%Z;
  parent_dir := λ _, "/work/data";
  ancestors := λ _, ["/work"; "/"];
  writable := λ _, true;
|}.


(** A raw file with two objects that share a pair of tags. *)
Definition angels_state : state := {|
  clock := 0;
  requests := [];
  dirs := {["/"; "/work"; "/work/data"]};
  files := {["data/raw.json" :=
               FJson (mapping_json [("1", ["Angels"; "Saints"; "Crosses"]);
                                    ("2", ["Angels"; "Saints"]);
                                    ("3", ["Crosses"])])]};
  stdin := [];
|}.


(** * Properties *)

(** ** How the primitives run *)

Lemma same_disk_refl s : same_disk s s.
Proof. by repeat split. Qed.

Lemma same_disk_trans s1 s2 s3 :
  same_disk s1 s2 → same_disk s2 s3 → same_disk s1 s3.
Proof. intros (? & ? & ?) (? & ? & ?); repeat split; congruence. Qed.

Lemma same_disk_sent env rq s : same_disk s (sent env rq s).
Proof. by repeat split. Qed.

Lemma same_disk_set_clock t s : same_disk s (set_clock t s).
Proof. by repeat split. Qed.

#[local] Hint Resolve same_disk_refl same_disk_sent same_disk_set_clock : core.

Lemma get_api_data_run env endpoint params s :
  get_api_data env endpoint params s =
    (fetch env {| url := endpoint; params := default [] params |},
     sent env {| url := endpoint; params := default [] params |} s).
Proof.
  unfold get_api_data, try_except, fetch, bind, http_get, sent.
  destruct (respond env _) as [| | | data | e]; try done. by destruct e.
Qed.

Lemma get_terms_from_endpoint_run env endpoint objectID return_full_list s :
  get_terms_from_endpoint env endpoint objectID return_full_list s =
    (fetch_terms env endpoint objectID return_full_list,
     sent env (object_request endpoint objectID) s).
Proof.
  unfold get_terms_from_endpoint, try_except, bind.
  rewrite get_api_data_run. unfold fetch_terms, object_request; simpl.
  destruct (fetch env _) as [data | e]; simpl.
  - unfold lift. destruct (terms_of_data data return_full_list) as [? | e];
      [done | by destruct e].
  - by destruct e.
Qed.

Lemma process_object_terms_run env endpoint objectID return_full_list verbose s :
  process_object_terms env endpoint objectID return_full_list verbose s =
    (Ok (object_result env endpoint objectID return_full_list),
     sent env (object_request endpoint (py_str objectID)) s).
Proof.
  unfold process_object_terms, try_except, bind.
  rewrite get_terms_from_endpoint_run. unfold object_result.
  destruct (fetch_terms env endpoint (py_str objectID) return_full_list)
    as [[[| t ts] |] | e]; by destruct verbose.
Qed.

Lemma set_clock_same s : set_clock (clock s) s = s.
Proof. by destruct s. Qed.

(** A limiter with a positive rate never fails: it only moves the clock. *)
Lemma wait_if_necessary_run self s :
  (0 < calls_per_second self)%Q →
  ∃ self' t,
    wait_if_necessary self s = (Ok self', set_clock t s) ∧
    calls_per_second self' = calls_per_second self.
Proof.
  intros Hpos. unfold wait_if_necessary, bind, datetime_now.
  set (q := drop_expired (clock s) (calls_made self)).
  destruct (Qle_bool (calls_per_second self) (inject_Z (Z.of_nat (length q))))
    eqn:Hfull.
  - destruct q as [| oldest rest].
    + apply Qle_bool_iff in Hfull. simpl in Hfull.
      exfalso. apply (Qlt_not_le _ _ Hpos). exact Hfull.
    + destruct (0 <? oldest + one_second - clock s)%Z; simpl.
      * unfold time_sleep, ret. eexists _, _. split; [reflexivity | done].
      * unfold ret. eexists _, (clock s).
        rewrite set_clock_same. split; [reflexivity | done].
  - unfold ret. simpl. eexists _, (clock s).
    rewrite set_clock_same. split; [reflexivity | done].
Qed.

Lemma validate_path_traffic env filepath s r s' :
  validate_path env filepath s = (r, s') → same_traffic s s'.
Proof.
  unfold validate_path, bind, path_exists, input, makedirs, raise, ret.
  destruct filepath as [p |]; [| by intros [= <- <-]].
  destruct (bool_decide (parent_dir env p ∈ dirs s)); [by intros [= <- <-] |].
  destruct (stdin s) as [| line rest]; [by intros [= <- <-] |].
  destruct (bool_decide _); by intros [= <- <-].
Qed.

Lemma validate_paths_traffic env filepaths s r s' :
  validate_paths env filepaths s = (r, s') → same_traffic s s'.
Proof.
  revert s. induction filepaths as [| p rest IH]; intros s; simpl.
  - by intros [= <- <-].
  - unfold bind.
    destruct (validate_path env p s) as [[[] | e] s1] eqn:H1;
      apply validate_path_traffic in H1 as [Hr Hf].
    + intros H2. apply IH in H2 as [Hr' Hf']. split; congruence.
    + by intros [= <- <-].
Qed.

(** Validation removes no directory, and where it returns, the directory
    of every path exists. *)
Lemma validate_path_dirs env filepath s r s' :
  validate_path env filepath s = (r, s') →
  dirs s ⊆ dirs s' ∧
  (r = Ok tt → ∀ f, filepath = Some f → parent_dir env f ∈ dirs s').
Proof.
  unfold validate_path, bind, path_exists, input, makedirs, raise, ret.
  destruct filepath as [p |]; [| by intros [= <- <-]].
  case_bool_decide as Hdir.
  { intros [= <- <-]. split; [done |]. by intros _ f [= <-]. }
  destruct (stdin s) as [| line rest]; [by intros [= <- <-] |].
  case_bool_decide; intros [= <- <-]; simpl; [| done].
  split.
  - intros d Hd. apply elem_of_union; left. apply elem_of_union; by left.
  - intros _ f [= <-]. apply elem_of_union; left. apply elem_of_union; right.
    by apply elem_of_singleton.
Qed.

Lemma validate_paths_dirs env filepaths s r s' :
  validate_paths env filepaths s = (r, s') →
  dirs s ⊆ dirs s' ∧
  (r = Ok tt → ∀ f, Some f ∈ filepaths → parent_dir env f ∈ dirs s').
Proof.
  revert s. induction filepaths as [| p rest IH]; intros s; simpl.
  - intros [= <- <-]. split; [done |]. intros _ f Hf. inversion Hf.
  - unfold bind.
    destruct (validate_path env p s) as [[[] | e] s1] eqn:H1;
      apply validate_path_dirs in H1 as [Hsub1 Hdir1].
    + intros H2. apply IH in H2 as [Hsub2 Hdir2].
      split; [by etrans |]. intros Hok f [<- | Hf]%elem_of_cons.
      * apply Hsub2. by apply Hdir1.
      * by apply Hdir2.
    + intros [= <- <-]. split; [done |]. by intros [=].
Qed.

(** The exceptions of path validation. *)
Lemma validate_paths_exceptions env filepaths s e s' :
  validate_paths env filepaths s = (Raise e, s') →
  e = TypeError ∨ e = EOFError ∨ ∃ d, e = FileNotFoundError d.
Proof.
  revert s. induction filepaths as [| p rest IH]; intros s; simpl; [done |].
  unfold bind. destruct (validate_path env p s) as [[[] | e0] s1] eqn:H1.
  - apply IH.
  - intros [= <- <-]. revert H1. unfold validate_path.
    destruct p as [p |]; [| intros [= <- _]; by left].
    unfold bind, path_exists, input, makedirs, ret, raise.
    case_bool_decide; [done |].
    destruct (stdin s) as [| line rest']; [intros [= <- _]; right; by left |].
    case_bool_decide; [done |].
    intros [= <- _]. right; right. by eexists.
Qed.

(** A missing path makes validation raise; nothing later is looked at. *)
Lemma validate_paths_None env filepaths s :
  None ∈ filepaths →
  ∃ e s', validate_paths env filepaths s = (Raise e, s') ∧ same_traffic s s'.
Proof.
  intros Hin. destruct (validate_paths env filepaths s) as [[[] | e] s'] eqn:Hrun.
  - exfalso. revert s Hrun.
    induction filepaths as [| p rest IH]; intros s; [by inversion Hin |].
    simpl. unfold bind.
    destruct (validate_path env p s) as [[[] | e] s1] eqn:H1; [| done].
    apply elem_of_cons in Hin as [<- | Hin]; [done | by apply IH].
  - exists e, s'. split; [done |]. by eapply validate_paths_traffic.
Qed.

(** ** Pairs of terms *)

Lemma choose_1 n : choose n 1 = n.
Proof. induction n as [| n IH]; simpl; [done |]. rewrite IH. by destruct n. Qed.

Section Combinations.

Context {A : Type}.

Lemma length_combinations2 (l : list A) :
  length (combinations2 l) = choose (length l) 2.
Proof.
  induction l as [| x rest IH]; simpl; [done |].
  rewrite length_app, length_map, IH, choose_1. done.
Qed.

Lemma elem_of_combinations2_cons (x a b : A) rest :
  (a, b) ∈ combinations2 (x :: rest) ↔
  (a = x ∧ b ∈ rest) ∨ (a, b) ∈ combinations2 rest.
Proof.
  simpl. rewrite elem_of_app, list_elem_of_fmap. split.
  - intros [(y & [= -> ->] & Hy) | H]; [left | right]; done.
  - intros [[-> Hb] | H]; [left | right]; [by exists b | done].
Qed.

Lemma combinations2_members (l : list A) a b :
  (a, b) ∈ combinations2 l → a ∈ l ∧ b ∈ l.
Proof.
  induction l as [| x rest IH]; [by intros H; inversion H |].
  rewrite elem_of_combinations2_cons. intros [[-> Hb] | H].
  - split; [left | by right].
  - destruct (IH H). split; by right.
Qed.

Lemma combinations2_distinct (l : list A) a b :
  NoDup l → (a, b) ∈ combinations2 l → a ≠ b.
Proof.
  induction 1 as [| x rest Hx Hnd IH]; [by intros H; inversion H |].
  rewrite elem_of_combinations2_cons. intros [[-> Hb] | H]; [| by apply IH].
  by intros ->.
Qed.

Lemma combinations2_one_order (l : list A) a b :
  NoDup l → (a, b) ∈ combinations2 l → (b, a) ∉ combinations2 l.
Proof.
  induction 1 as [| x rest Hx Hnd IH]; [by intros H; inversion H |].
  rewrite !elem_of_combinations2_cons.
  intros [[-> Hb] | H] [[-> Ha] | H']; try done.
  - destruct (combinations2_members _ _ _ H'). contradiction.
  - destruct (combinations2_members _ _ _ H). contradiction.
  - by apply (IH H).
Qed.

Lemma NoDup_combinations2 (l : list A) : NoDup l → NoDup (combinations2 l).
Proof.
  induction 1 as [| x rest Hx Hnd IH]; simpl; [constructor |].
  apply NoDup_app. split; [| split; [| done]].
  - apply NoDup_fmap_2; [| done]. by intros ?? [= ->].
  - intros [a b] (y & [= -> ->] & Hy)%list_elem_of_fmap H.
    destruct (combinations2_members _ _ _ H). contradiction.
Qed.

End Combinations.

Lemma pair_dict_inj : Inj (=) (=) pair_dict.
Proof. intros [a b] [c d]. unfold pair_dict; simpl. by intros [= -> ->]. Qed.

(** Pairs mode extracts the same terms as full-list mode and then pairs. *)
Lemma terms_of_data_modes data :
  terms_of_data data false =
    result_bind (terms_of_data data true) (λ o,
      match o with
      | Some terms =>
          Ok (if 1 <? length terms
              then Some (map pair_dict (combinations2 terms)) else None)
      | None => Ok None
      end).
Proof.
  unfold terms_of_data.
  destruct (py_getitem data "tags") as [tags | e]; simpl; [| done].
  destruct (py_iter tags) as [items | e]; simpl; [| done].
  destruct (comprehension _ items) as [terms | e]; simpl; [| done].
  by destruct (1 <? length terms).
Qed.

(** C4: an object with n >= 2 pairwise distinct terms yields, in pairs
    mode, the C(n,2) pairs of [combinations2]; the members of a pair are
    terms of the object and differ, no pair occurs twice, no pair occurs
    in both orders; three terms A, B, C give (A,B), (A,C), (B,C); and the
    value returned is the same in every state. *)
Theorem pairs_of_distinct_terms env endpoint objectID data terms :
  respond env (object_request endpoint objectID) = Body data →
  terms_of_data data true = Ok (Some terms) →
  NoDup terms →
  2 ≤ length terms →
  let pairs := combinations2 terms in
  (∀ s, fst (get_terms_from_endpoint env endpoint objectID false s)
        = Ok (Some (map pair_dict pairs))) ∧
  length (map pair_dict pairs) = choose (length terms) 2 ∧
  (∀ a b, (a, b) ∈ pairs → a ∈ terms ∧ b ∈ terms ∧ a ≠ b) ∧
  NoDup (map pair_dict pairs) ∧
  (∀ a b, (a, b) ∈ pairs → (b, a) ∉ pairs) ∧
  (∀ A B C, terms = [A; B; C] → pairs = [(A, B); (A, C); (B, C)]).
Proof.
  intros Hbody Hterms Hnd Hlen pairs. subst pairs. repeat split.
  - intros s. rewrite get_terms_from_endpoint_run; simpl.
    unfold fetch_terms, fetch. rewrite Hbody; simpl.
    rewrite terms_of_data_modes, Hterms; simpl.
    by destruct (Nat.ltb_spec 1 (length terms)); [| lia].
  - by rewrite length_map, length_combinations2.
  - by apply combinations2_members in H as [? _].
  - by apply combinations2_members in H as [_ ?].
  - by eapply combinations2_distinct.
  - apply NoDup_fmap_2; [apply pair_dict_inj | by apply NoDup_combinations2].
  - intros a b. by apply combinations2_one_order.
  - by intros A B C ->.
Qed.

(** Object 1 of the demo world, with its two terms. *)
Lemma pairs_of_distinct_terms_witness :
  fst (get_terms_from_endpoint demo_env demo_base "1" false demo_state)
  = Ok (Some [pair_dict (JStr "Angels", JStr "Saints")]).
Proof.
  refine (proj1 (pairs_of_distinct_terms demo_env demo_base "1"
                   (tags_body ["Angels"; "Saints"])
                   [JStr "Angels"; JStr "Saints"] _ _ _ _) demo_state).
  - reflexivity.
  - reflexivity.
  - apply (bool_decide_unpack (NoDup [JStr "Angels"; JStr "Saints"])).
    vm_compute. exact I.
  - simpl; lia.
Defined.

(** ** Aggregation into weighted edges *)

Lemma insert_key_perm k sorted : insert_key k sorted ≡ₚ k :: sorted.
Proof.
  induction sorted as [| k' rest IH]; simpl; [done |].
  destruct (key_leb k k'); [done |]. rewrite IH. apply Permutation_swap.
Qed.

Lemma sort_keys_perm keys : sort_keys keys ≡ₚ keys.
Proof.
  induction keys as [| k rest IH]; simpl; [done |].
  rewrite insert_key_perm. by rewrite IH.
Qed.

Lemma DataFrame_pair_dicts rows : DataFrame (map pair_dict rows) = Ok rows.
Proof.
  unfold DataFrame. induction rows as [| [a b] rest IH]; simpl; [done |].
  by rewrite IH.
Qed.







(** ** The rate limiter *)

(** Below the limit the call is let through at once. *)
Lemma wait_if_necessary_below_limit self s :
  (inject_Z (Z.of_nat (length (drop_expired (clock s) (calls_made self))))
   < calls_per_second self)%Q →
  wait_if_necessary self s =
    (Ok {| calls_per_second := calls_per_second self;
           minimum_interval := minimum_interval self;
           calls_made := drop_expired (clock s) (calls_made self) ++ [clock s] |},
     s).
Proof.
  intros Hlt. unfold wait_if_necessary, bind, datetime_now.
  destruct (Qle_bool _ _) eqn:Hfull; [| done].
  apply Qle_bool_iff in Hfull. exfalso. by apply (Qlt_not_le _ _ Hlt).
Qed.

(** The time recorded for a call is the time it entered, also when the
    call slept before it was let through. *)
Lemma wait_if_necessary_records_entry self s self' s' :
  wait_if_necessary self s = (Ok self', s') →
  last (calls_made self') = Some (clock s).
Proof.
  unfold wait_if_necessary, bind, datetime_now.
  destruct (Qle_bool _ _).
  - destruct (drop_expired _ _) as [| oldest rest] eqn:Hq; [done |].
    destruct (0 <? _)%Z; intros [= <- _]; cbn [calls_made];
      change (last ((oldest :: rest) ++ [clock s]) = Some (clock s));
      apply last_snoc.
  - intros [= <- _]; cbn [calls_made]; apply last_snoc.
Qed.

(** C7 fails on the code: with two calls per second allowed, five calls
    that each follow one millisecond of work are released at 0, 1000,
    1000000, 1001000 and 1002000 microseconds; the last three fall in one
    window of one second. *)
Theorem limiter_releases_three_calls_within_a_second :
  ∃ limiter released,
    RateLimiter_init 2 = Ok limiter ∧
    fst (issue_calls limiter [0; 1000; 1000; 1000; 1000]%Z demo_state)
      = Ok released ∧
    released = [0; 1000; 1000000; 1001000; 1002000]%Z ∧
    released_in_window 1002000 released = 3 ∧
    (inject_Z (Z.of_nat (released_in_window 1002000 released))
       > calls_per_second limiter)%Q.
Proof.
  eexists _, _. split; [reflexivity |].
  split; [vm_compute; reflexivity |].
  split; [reflexivity |].
  split; [reflexivity |].
  reflexivity.
Qed.

(** ** The offline deriver *)

Lemma json_loads_short_list v : short_list v → short_list (json_loads v).
Proof.
  intros (terms & -> & Hlen). exists (map json_loads terms).
  split; [done |]. by rewrite length_map.
Qed.

Lemma Forall_dict_of_pairs (P : string * json → Prop) pairs :
  Forall P pairs → Forall P (dict_of_pairs pairs).
Proof.
  unfold dict_of_pairs. intros Hpairs.
  assert (Hacc : Forall P []) by constructor.
  revert Hacc. generalize (@nil (string * json)) as d.
  induction Hpairs as [| kv rest Hkv Hrest IH]; intros d Hd; simpl; [done |].
  apply IH. unfold dict_put. destruct (bool_decide _).
  - apply Forall_fmap. eapply Forall_impl; [exact Hd |].
    intros kv' Hkv'; simpl. by destruct (decide _).
  - apply Forall_app. split; [done |]. by constructor.
Qed.

Lemma json_loads_fields_short fields :
  Forall (λ kv, short_list (snd kv)) fields →
  ∃ fields', json_loads (JObj fields) = JObj fields' ∧
             Forall (λ kv, short_list (snd kv)) fields'.
Proof.
  intros Hshort. simpl. eexists; split; [reflexivity |].
  apply Forall_dict_of_pairs, Forall_fmap.
  eapply Forall_impl; [exact Hshort |].
  intros [k v] Hv; simpl. by apply json_loads_short_list.
Qed.

Lemma pairs_of_items_short fields acc :
  Forall (λ kv, short_list (snd kv)) fields →
  pairs_of_items fields acc = Ok acc.
Proof.
  induction 1 as [| [k v] rest (terms & Hv & Hlen) Hrest IH]; simpl; [done |].
  simpl in Hv; subst v; simpl.
  by destruct (Nat.ltb_spec 1 (length terms)); [lia |].
Qed.

(** C10: on a raw mapping in which every object has at most one term,
    [create_term_pairs] raises the NameError of the unbound [df] and
    leaves the state, hence every file, as it was. *)
Theorem create_term_pairs_without_pairs env raw_terms_file
    processed_terms_file s fields :
  files s !! raw_terms_file = Some (FJson (JObj fields)) →
  Forall (λ kv, ∃ terms, snd kv = JArr terms ∧ length terms ≤ 1) fields →
  ∃ e, create_term_pairs env raw_terms_file processed_terms_file s
       = (Raise e, s) ∧
       e = UnboundLocalError "df" ∧ is_NameError e = true.
Proof.
  intros Hfile Hshort. exists (UnboundLocalError "df").
  split; [| done].
  unfold create_term_pairs, bind, json_load. rewrite Hfile.
  destruct (json_loads_fields_short fields Hshort) as (fields' & -> & Hshort').
  unfold lift; simpl. by rewrite pairs_of_items_short.
Qed.

(** The deriver on a dump of one single-term and one empty object. *)
Lemma create_term_pairs_without_pairs_witness :
  ∃ e, create_term_pairs demo_env "data/raw.json" "data/pairs.csv" lonely_state
       = (Raise e, lonely_state) ∧
       e = UnboundLocalError "df" ∧ is_NameError e = true.
Proof.
  apply (create_term_pairs_without_pairs demo_env "data/raw.json"
           "data/pairs.csv" lonely_state
           [("3", JArr [JStr "Crosses"]); ("5", JArr [])]).
  - vm_compute. reflexivity.
  - repeat constructor; simpl; eexists; (split; [reflexivity | simpl; lia]).
Defined.

Lemma sent_set_clock env rq t s :
  same_disk s (sent env rq (set_clock t s)) ∧
  requests (sent env rq (set_clock t s)) = rq :: requests s.
Proof. by repeat split. Qed.

(** ** The batch loops *)

Section Loops.

Context (env : environment) (endpoint : string).

Lemma successful_cons full id rest :
  successful env endpoint full (id :: rest) =
    if succeeds env endpoint full id
    then id :: successful env endpoint full rest
    else successful env endpoint full rest.
Proof. reflexivity. Qed.

Lemma failed_cons full id rest :
  failed env endpoint full (id :: rest) =
    if succeeds env endpoint full id
    then failed env endpoint full rest
    else id :: failed env endpoint full rest.
Proof. unfold failed; simpl. by destruct (succeeds _ _ _ _). Qed.

Lemma successful_failed_length full ids :
  length (successful env endpoint full ids) + length (failed env endpoint full ids)
  = length ids.
Proof.
  induction ids as [| id rest IH]; [done |].
  rewrite successful_cons, failed_cons.
  destruct (succeeds _ _ _ _); simpl; lia.
Qed.

(** An ID is accumulated or counted as failed, never both. *)
Lemma successful_or_failed full ids id :
  id ∈ ids →
  (id ∈ successful env endpoint full ids ∧ id ∉ failed env endpoint full ids) ∨
  (id ∈ failed env endpoint full ids ∧ id ∉ successful env endpoint full ids).
Proof.
  intros Hin. unfold successful, failed.
  rewrite !list_elem_of_In, !filter_In, <- !list_elem_of_In.
  destruct (succeeds env endpoint full id) eqn:Hs; [left | right];
    (split; [by split | intros [_ ?]; done]).
Qed.

Lemma object_requests_cons id rest :
  object_requests endpoint (id :: rest) =
    object_requests endpoint rest ++ [object_request endpoint (py_str id)].
Proof. unfold object_requests. by rewrite reverse_cons, map_app. Qed.

Lemma pairs_loop_run full verbose ids :
  ∀ limiter terms n s,
    (0 < calls_per_second limiter)%Q →
    ∃ s',
      pairs_loop env endpoint full verbose ids limiter terms n s =
        (Ok (terms ++ accumulated_terms env endpoint full ids,
             n + length (failed env endpoint full ids)), s') ∧
      same_disk s s' ∧
      requests s' = object_requests endpoint ids ++ requests s.
Proof.
  induction ids as [| id rest IH]; intros limiter terms n s Hpos.
  - exists s. unfold accumulated_terms; simpl. unfold ret.
    rewrite app_nil_r, Nat.add_0_r. by repeat split.
  - unfold accumulated_terms. rewrite successful_cons, failed_cons.
    unfold succeeds.
    cbn [pairs_loop]. unfold bind at 1.
    destruct (wait_if_necessary_run limiter s Hpos) as (limiter' & t & -> & Hcps).
    unfold bind at 1. rewrite process_object_terms_run.
    destruct (sent_set_clock env (object_request endpoint (py_str id)) t s)
      as [Hdisk Hreq].
    set (s1 := sent env _ (set_clock t s)) in *. clearbody s1.
    rewrite <- Hcps in Hpos.
    destruct (object_result env endpoint id full) as [object_terms [|]] eqn:Hres;
      simpl.
    + destruct (IH limiter' (terms ++ object_terms) n s1 Hpos)
        as (s' & -> & Hdisk' & Hreq').
      exists s'. rewrite Hres; simpl. rewrite <- app_assoc.
      split; [done |]. split; [by eapply same_disk_trans |].
      by rewrite Hreq', Hreq, object_requests_cons, <- app_assoc.
    + destruct (IH limiter' terms (S n) s1 Hpos) as (s' & -> & Hdisk' & Hreq').
      exists s'. split; [do 3 f_equal; lia |].
      split; [by eapply same_disk_trans |].
      by rewrite Hreq', Hreq, object_requests_cons, <- app_assoc.
Qed.

Lemma is_identifier_hashable id : is_identifier id → hashable id = true.
Proof. by destruct id. Qed.

Lemma collection_loop_run verbose ids :
  ∀ limiter d n s,
    (0 < calls_per_second limiter)%Q →
    Forall is_identifier ids →
    ∃ s',
      collection_loop env endpoint verbose ids limiter d n s =
        (Ok (accumulated_dict env endpoint d ids,
             n + length (failed env endpoint true ids)), s') ∧
      same_disk s s' ∧
      requests s' = object_requests endpoint ids ++ requests s.
Proof.
  induction ids as [| id rest IH]; intros limiter d n s Hpos Hids.
  - exists s. unfold accumulated_dict; simpl. unfold ret.
    rewrite Nat.add_0_r. by repeat split.
  - apply Forall_cons in Hids as [Hid Hids].
    unfold accumulated_dict. rewrite successful_cons, failed_cons.
    unfold succeeds.
    cbn [collection_loop]. unfold bind at 1.
    destruct (wait_if_necessary_run limiter s Hpos) as (limiter' & t & -> & Hcps).
    unfold bind at 1. rewrite process_object_terms_run.
    destruct (sent_set_clock env (object_request endpoint (py_str id)) t s)
      as [Hdisk Hreq].
    set (s1 := sent env _ (set_clock t s)) in *. clearbody s1.
    rewrite <- Hcps in Hpos.
    destruct (object_result env endpoint id true) as [object_terms [|]] eqn:Hres;
      simpl.
    + unfold bind at 1, lift, dict_setitem.
      rewrite (is_identifier_hashable id Hid).
      destruct (IH limiter' (dict_update d id (JArr object_terms)) n s1 Hpos Hids)
        as (s' & -> & Hdisk' & Hreq').
      exists s'. rewrite Hres; simpl.
      split; [done |]. split; [by eapply same_disk_trans |].
      by rewrite Hreq', Hreq, object_requests_cons, <- app_assoc.
    + destruct (IH limiter' d (S n) s1 Hpos Hids) as (s' & -> & Hdisk' & Hreq').
      exists s'. split; [do 3 f_equal; lia |].
      split; [by eapply same_disk_trans |].
      by rewrite Hreq', Hreq, object_requests_cons, <- app_assoc.
Qed.

Lemma fresh_limiter_init : RateLimiter_init 2 = Ok fresh_limiter.
Proof. reflexivity. Qed.

Lemma fresh_limiter_pos : (0 < calls_per_second fresh_limiter)%Q.
Proof. reflexivity. Qed.

(** *** The dict of the raw batch *)

Lemma dict_update_fresh (d : pydict) key value :
  key ∉ map fst d → dict_update d key value = d ++ [(key, value)].
Proof.
  induction d as [| [k v] rest IH]; simpl; [done |].
  intros Hkey. apply not_elem_of_cons in Hkey as [Hne Hkey].
  destruct (decide (k = key)); [by subst |]. by rewrite IH.
Qed.

Lemma dict_update_keys (d : pydict) key value id :
  id ∈ map fst (dict_update d key value) ↔ id ∈ map fst d ∨ id = key.
Proof.
  induction d as [| [k v] rest IH]; simpl.
  - rewrite list_elem_of_singleton. split; [by right | by intros [H | H]; [inversion H |]].
  - destruct (decide (k = key)) as [-> | Hne]; simpl.
    + rewrite elem_of_cons. tauto.
    + rewrite !elem_of_cons, IH. tauto.
Qed.

Lemma foldl_dict_update_keys (f : json → json) ids : ∀ (d : pydict) id,
  id ∈ map fst (foldl (λ d id, dict_update d id (f id)) d ids) ↔
  id ∈ map fst d ∨ id ∈ ids.
Proof.
  induction ids as [| x rest IH]; intros d id; simpl.
  - split; [by left | by intros [H | H]; [| inversion H]].
  - rewrite IH, dict_update_keys, elem_of_cons. tauto.
Qed.

Lemma foldl_dict_update_fresh (f : json → json) ids : ∀ d : pydict,
  NoDup ids →
  (∀ id, id ∈ ids → id ∉ map fst d) →
  foldl (λ d id, dict_update d id (f id)) d ids =
    d ++ map (λ id, (id, f id)) ids.
Proof.
  induction ids as [| x rest IH]; intros d Hnd Hfresh; simpl.
  - by rewrite app_nil_r.
  - apply NoDup_cons in Hnd as [Hx Hnd].
    rewrite dict_update_fresh by (apply Hfresh; left).
    rewrite IH, <- app_assoc; [done | done |].
    intros id Hid. rewrite map_app, elem_of_app; simpl.
    rewrite list_elem_of_singleton. intros [Hd | ->]; [| done].
    by apply (Hfresh id); [right |].
Qed.

Lemma NoDup_successful full ids :
  NoDup ids → NoDup (successful env endpoint full ids).
Proof.
  unfold successful. induction 1 as [| x rest Hx Hnd IH]; simpl; [constructor |].
  destruct (succeeds _ _ _ x); [| done].
  constructor; [| done]. rewrite list_elem_of_In, filter_In, <- list_elem_of_In.
  by intros [? _].
Qed.

Lemma accumulated_dict_NoDup ids :
  NoDup ids →
  accumulated_dict env endpoint [] ids =
    map (λ id, (id, JArr (fst (object_result env endpoint id true))))
      (successful env endpoint true ids).
Proof.
  intros Hnd. unfold accumulated_dict.
  rewrite (foldl_dict_update_fresh
             (λ id, JArr (fst (object_result env endpoint id true)))); [done | |].
  - by apply NoDup_successful.
  - intros id _ H. inversion H.
Qed.

(** C1: [process_object_terms] gives every object ID one success flag;
    each object ID of a batch loop is accordingly either accumulated or
    counted as failed, never both, so the number of accumulated objects
    plus the returned failure count is the number of object IDs; the
    pairs loop returns the terms of the accumulated objects, the raw loop
    a dict whose keys are the accumulated IDs, one entry per ID when the
    IDs are distinct. *)
Theorem every_object_counted_once verbose limiter ids s :
  (0 < calls_per_second limiter)%Q →
  (∀ full id v t,
     fst (process_object_terms env endpoint id full v t)
     = Ok (fst (object_result env endpoint id full), succeeds env endpoint full id)) ∧
  (∀ full id, id ∈ ids →
     (id ∈ successful env endpoint full ids ∧ id ∉ failed env endpoint full ids) ∨
     (id ∈ failed env endpoint full ids ∧ id ∉ successful env endpoint full ids)) ∧
  (∀ full, ∃ terms none_count s',
     pairs_loop env endpoint full verbose ids limiter [] 0 s
       = (Ok (terms, none_count), s') ∧
     terms = accumulated_terms env endpoint full ids ∧
     none_count = length (failed env endpoint full ids) ∧
     length (successful env endpoint full ids) + none_count = length ids) ∧
  (Forall is_identifier ids →
   ∃ terms_dict none_count s',
     collection_loop env endpoint verbose ids limiter [] 0 s
       = (Ok (terms_dict, none_count), s') ∧
     (∀ id, id ∈ map fst terms_dict ↔ id ∈ successful env endpoint true ids) ∧
     none_count = length (failed env endpoint true ids) ∧
     length (successful env endpoint true ids) + none_count = length ids ∧
     (NoDup ids → length terms_dict + none_count = length ids)).
Proof.
  intros Hpos. split; [| split; [| split]].
  - intros full id v t. rewrite process_object_terms_run. unfold succeeds.
    by destruct (object_result env endpoint id full).
  - intros full id. apply successful_or_failed.
  - intros full.
    destruct (pairs_loop_run full verbose ids limiter [] 0 s Hpos)
      as (s' & Hrun & _).
    eexists _, _, s'. split; [exact Hrun |]. split; [done |]. split; [done |].
    apply successful_failed_length.
  - intros Hids.
    destruct (collection_loop_run verbose ids limiter [] 0 s Hpos Hids)
      as (s' & Hrun & _).
    eexists _, _, s'. split; [exact Hrun |]. split; [| split; [done | split]].
    + intros id. unfold accumulated_dict.
      rewrite (foldl_dict_update_keys
                 (λ id, JArr (fst (object_result env endpoint id true)))).
      split; [by intros [H | H]; [inversion H |] | by right].
    + apply successful_failed_length.
    + intros Hnd. rewrite accumulated_dict_NoDup, length_map by done.
      apply successful_failed_length.
Qed.


(** ** One object *)

Lemma combinations2_nil {A} (l : list A) : combinations2 l = [] → length l ≤ 1.
Proof. destruct l as [| x [| y rest]]; simpl; [lia | lia | done]. Qed.

(** In pairs mode the result of an object is the list of its pairs, and
    the object succeeds exactly when it has a pair. *)
Lemma object_result_pairs id :
  object_result env endpoint id false =
    (map pair_dict (object_pairs env endpoint id),
     negb (bool_decide (object_pairs env endpoint id = []))).
Proof.
  unfold object_result, object_pairs, fetch_terms.
  destruct (fetch env _) as [data | e]; simpl; [| done].
  rewrite terms_of_data_modes.
  destruct (terms_of_data data true) as [[terms |] | e]; simpl; [| done | done].
  destruct (Nat.ltb_spec 1 (length terms)) as [Hlen | Hlen]; [| done].
  destruct (combinations2 terms) as [| p ps] eqn:Hc; [| done].
  apply combinations2_nil in Hc. lia.
Qed.





(** C3, as the code has it: when the fetch succeeds and the tags give at
    most one term, pairs-mode extraction raises nothing and returns
    [None]; [process_object_terms] turns that into the empty list with
    the success flag off; and the loop adds no pair for the object and
    adds one to the failure count. *)
Theorem object_with_at_most_one_term objectID data terms :
  respond env (object_request endpoint (py_str objectID)) = Body data →
  terms_of_data data true = Ok (Some terms) →
  length terms ≤ 1 →
  (∀ s, fst (get_terms_from_endpoint env endpoint (py_str objectID) false s)
        = Ok None) ∧
  (∀ verbose s, fst (process_object_terms env endpoint objectID false verbose s)
                = Ok ([], false)) ∧
  (∀ verbose rest limiter terms_so_far none_count s,
     (0 < calls_per_second limiter)%Q →
     fst (pairs_loop env endpoint false verbose (objectID :: rest) limiter
            terms_so_far none_count s)
     = Ok (terms_so_far ++ accumulated_terms env endpoint false rest,
           S none_count + length (failed env endpoint false rest))).
Proof.
  intros Hbody Hterms Hlen.
  assert (Hfetch : fetch_terms env endpoint (py_str objectID) false = Ok None).
  { unfold fetch_terms, fetch. rewrite Hbody; simpl.
    rewrite terms_of_data_modes, Hterms; simpl.
    by destruct (Nat.ltb_spec 1 (length terms)); [lia |]. }
  assert (Hres : object_result env endpoint objectID false = ([], false)).
  { unfold object_result. by rewrite Hfetch. }
  split; [| split].
  - intros s. by rewrite get_terms_from_endpoint_run.
  - intros verbose s. by rewrite process_object_terms_run, Hres.
  - intros verbose rest limiter terms_so_far none_count s Hpos.
    destruct (pairs_loop_run false verbose (objectID :: rest)
                limiter terms_so_far none_count s Hpos) as (s' & -> & _).
    unfold accumulated_terms.
    rewrite successful_cons, failed_cons. unfold succeeds.
    rewrite Hres; simpl. do 2 f_equal. lia.
Qed.

End Loops.

(** The pairs loop over the four objects of the demo world. *)
Lemma every_object_counted_once_witness :
  ∃ terms none_count s',
    pairs_loop demo_env demo_base false false
      [JInt 1; JInt 2; JInt 3; JInt 4] fresh_limiter [] 0 demo_state
      = (Ok (terms, none_count), s') ∧
    terms = accumulated_terms demo_env demo_base false
              [JInt 1; JInt 2; JInt 3; JInt 4] ∧
    none_count = length (failed demo_env demo_base false
                           [JInt 1; JInt 2; JInt 3; JInt 4]) ∧
    length (successful demo_env demo_base false
              [JInt 1; JInt 2; JInt 3; JInt 4]) + none_count = 4.
Proof.
  refine (proj1 (proj2 (proj2
            (every_object_counted_once demo_env demo_base false fresh_limiter
               [JInt 1; JInt 2; JInt 3; JInt 4] demo_state _))) false).
  reflexivity.
Defined.

(** Object 3 of the demo world, followed by object 1. *)
Lemma object_with_at_most_one_term_witness :
  fst (pairs_loop demo_env demo_base false false [JInt 3; JInt 1] fresh_limiter
         [] 0 demo_state)
  = Ok ([] ++ accumulated_terms demo_env demo_base false [JInt 1],
        1 + length (failed demo_env demo_base false [JInt 1])).
Proof.
  refine (proj2 (proj2 (object_with_at_most_one_term demo_env demo_base (JInt 3)
                          (tags_body ["Crosses"]) [JStr "Crosses"] _ _ _))
            false [JInt 1] fresh_limiter [] 0 demo_state _).
  - reflexivity.
  - reflexivity.
  - simpl; lia.
  - reflexivity.
Defined.

(** C3, as stated, fails: object 3 of the demo world is fetched, has one
    term, and is the one failure the pairs loop over it counts. *)
Lemma single_term_object_is_counted_as_failed :
  fetch_terms demo_env demo_base "3" true = Ok (Some [JStr "Crosses"]) ∧
  fst (get_terms_from_endpoint demo_env demo_base "3" false demo_state) = Ok None ∧
  fst (pairs_loop demo_env demo_base false false [JInt 3] fresh_limiter [] 0
         demo_state) = Ok ([], 1).
Proof. by vm_compute. Qed.

(** ** The batch functions *)

Lemma get_object_ids_run env collection_endpoint collection_params limit s :
  get_object_ids env collection_endpoint collection_params limit s =
    (listed_object_ids env collection_endpoint collection_params limit,
     sent env (collection_request collection_endpoint collection_params) s).
Proof.
  unfold get_object_ids, listed_object_ids, bind. rewrite get_api_data_run.
  unfold collection_request; simpl.
  destruct (fetch env _) as [data | e]; simpl; [| done].
  unfold lift. destruct (py_get data "objectIDs" (JArr [])) as [ids | e]; simpl;
    [| done].
  destruct limit as [k |]; [| done]. by destruct (k =? 0)%Z.
Qed.

Lemma code_points_aux_nonempty cur s :
  cur ≠ EmptyString → code_points_aux cur s ≠ [].
Proof.
  revert cur. induction s as [| a rest IH]; intros cur Hcur; simpl.
  - by destruct cur.
  - destruct (is_continuation a).
    + apply IH. by destruct cur.
    + by destruct cur.
Qed.

Lemma code_points_nil s : code_points s = [] ↔ s = EmptyString.
Proof.
  split; [| by intros ->].
  destruct s as [| a rest]; [done |]. unfold code_points; simpl.
  destruct (is_continuation a); intros H; by apply code_points_aux_nonempty in H.
Qed.

(** An iterable is false exactly when it has no items. *)
Lemma py_iter_bool x ids :
  py_iter x = Ok ids → py_bool x = negb (bool_decide (ids = [])).
Proof.
  destruct x as [| | | | str | items | fields]; try done; intros [= <-]; simpl.
  - f_equal. apply bool_decide_ext. rewrite <- code_points_nil.
    by destruct (code_points str).
  - done.
  - f_equal. apply bool_decide_ext. by destruct fields.
Qed.

Lemma py_iter_len x ids : py_iter x = Ok ids → py_len x = Ok (length ids).
Proof.
  destruct x; try done; intros [= <-]; simpl; by rewrite ?length_map.
Qed.

(** ** Writing the results *)

Lemma truthy_path_Some p : p ≠ "" → truthy_path (Some p) = true.
Proof. intros Hp. unfold truthy_path. by rewrite bool_decide_eq_false_2. Qed.

Lemma write_file_run env path content s r s' :
  write_file env path content s = (r, s') →
  (r = Ok tt ∧ can_write env s path ∧
   s' = set_files (<[path := content]> (files s)) s) ∨
  ((r = Raise (FileNotFoundError path) ∨ r = Raise (OSError path)) ∧ s' = s).
Proof.
  unfold write_file. case_bool_decide as Hp; simpl.
  { intros [= <- <-]. right. split; [by left | done]. }
  case_bool_decide as Hd; simpl;
    [| intros [= <- <-]; right; split; [by left | done]].
  destruct (writable env path) eqn:Hw; simpl; intros [= <- <-].
  - by left.
  - right. split; [by right | done].
Qed.

Lemma write_file_ok env path content s :
  can_write env s path →
  write_file env path content s
  = (Ok tt, set_files (<[path := content]> (files s)) s).
Proof.
  intros (Hp & Hd & Hw). unfold write_file.
  by rewrite (bool_decide_eq_false_2 _ Hp), (bool_decide_eq_true_2 _ Hd), Hw.
Qed.

Lemma to_csv_run env path rows s r s' :
  to_csv env path rows s = (r, s') →
  (r = Ok tt ∧ can_write env s path ∧
   s' = set_files (<[path := FCsv rows]> (files s)) s) ∨
  ((r = Raise (FileNotFoundError path) ∨ r = Raise (OSError path)) ∧ s' = s).
Proof.
  unfold to_csv. case_bool_decide as Hp.
  { intros [= <- <-]. right. split; [by left | done]. }
  case_bool_decide as Hd; simpl;
    [| intros [= <- <-]; right; split; [by right | done]].
  destruct (writable env path) eqn:Hw; simpl; intros [= <- <-].
  - by left.
  - right. split; [by right | done].
Qed.

Lemma to_csv_ok env path rows s :
  can_write env s path →
  to_csv env path rows s = (Ok tt, set_files (<[path := FCsv rows]> (files s)) s).
Proof.
  intros (Hp & Hd & Hw). unfold to_csv.
  by rewrite (bool_decide_eq_false_2 _ Hp), (bool_decide_eq_true_2 _ Hd), Hw.
Qed.

(** On string cells the grouping raises nothing and drops nothing. *)
Lemma groupby_weight_strs rows :
  Forall str_cells rows → groupby_weight rows = Ok (groupby_size rows).
Proof.
  intros Hstr. unfold groupby_weight.
  assert (Hhash : forallb (λ r, hashable (fst r) && hashable (snd r)) rows = true).
  { induction Hstr as [| [a b] rest [Ha Hb] Hrest IH]; [done |].
    simpl in *. rewrite IH. by destruct a, b. }
  assert (Hkeep : List.filter
                    (λ r, negb (null_cell (fst r)) && negb (null_cell (snd r)))
                    rows = rows).
  { clear Hhash. induction Hstr as [| [a b] rest [Ha Hb] Hrest IH]; [done |].
    simpl in *. rewrite IH.
    destruct a; simpl in Ha; try done. destruct b; simpl in Hb; done. }
  by rewrite Hhash, Hkeep.
Qed.

(** What each block of [save_results] does to the state: nothing, or
    one write. *)
Lemma save_edge_table_run env terms save_csv full s r s' :
  save_edge_table env terms save_csv full s = (r, s') →
  s' = s ∨
  ∃ p table, r = Ok tt ∧ save_csv = Some p ∧ full = false ∧
             can_write env s p ∧
             s' = set_files (<[p := FCsv table]> (files s)) s.
Proof.
  unfold save_edge_table, ret.
  destruct save_csv as [p |]; [| intros [= <- <-]; by left].
  destruct (truthy_path (Some p) && negb full) eqn:Hc;
    [| intros [= <- <-]; by left].
  apply andb_prop in Hc as [Hp Hfull]. apply negb_true_iff in Hfull.
  unfold bind, lift.
  destruct (frame_records terms) as [records | e]; [| intros [= <- <-]; by left].
  destruct (DataFrame records) as [df | e]; [| intros [= <- <-]; by left].
  destruct (negb (bool_decide (df = []))); [| intros [= <- <-]; by left].
  destruct (groupby_weight df) as [table | e]; [| intros [= <- <-]; by left].
  intros [(-> & Hcan & ->) | [_ ->]]%to_csv_run; [| by left].
  right. by exists p, table.
Qed.

Lemma save_dump_run env terms save_file s r s' :
  save_dump env terms save_file s = (r, s') →
  s' = s ∨
  ∃ p, r = Ok tt ∧ save_file = Some p ∧ can_write env s p ∧
       s' = set_files (<[p := FJson (json_dump terms)]> (files s)) s.
Proof.
  unfold save_dump, ret.
  destruct save_file as [p |]; [| intros [= <- <-]; by left].
  destruct (truthy_path (Some p)); [| intros [= <- <-]; by left].
  intros [(-> & Hcan & ->) | [_ ->]]%write_file_run; [| by left].
  right. by exists p.
Qed.

Lemma save_report_run env terms report report_file total_objects none_count
    s r s' :
  save_report env terms report report_file total_objects none_count s = (r, s') →
  s' = s ∨
  (r = Ok tt ∧ report = true ∧ can_write env s report_file ∧
   s' = set_files
          (<[report_file :=
               FText (report_text total_objects (batch_len terms) none_count)]>
             (files s)) s).
Proof.
  unfold save_report, ret.
  destruct report; [| intros [= <- <-]; by left].
  intros [(-> & Hcan & ->) | [_ ->]]%write_file_run; [| by left].
  by right.
Qed.

(** The pairs block on a list of pair dicts with string cells. *)
Lemma save_edge_table_pairs env rows csv_path s :
  csv_path ≠ "" →
  Forall str_cells rows →
  save_edge_table env (ResList (map pair_dict rows)) (Some csv_path) false s
  = if bool_decide (rows = []) then (Ok tt, s)
    else to_csv env csv_path (groupby_size rows) s.
Proof.
  intros Hp Hstr. unfold save_edge_table.
  rewrite (truthy_path_Some _ Hp). simpl.
  unfold bind, lift. rewrite DataFrame_pair_dicts.
  case_bool_decide; [done |]. simpl. by rewrite groupby_weight_strs.
Qed.

(** Apart from the files, [save_results] changes nothing, however it
    ends. *)
Lemma save_results_traffic env terms save_csv save_file report report_file
    total_objects none_count full s r s' :
  save_results env terms save_csv save_file report report_file total_objects
    none_count full s = (r, s') →
  same_but_files s s'.
Proof.
  unfold save_results. unfold bind at 1.
  destruct (save_edge_table env terms save_csv full s) as [r1 s1] eqn:H1.
  assert (Hs1 : same_but_files s s1).
  { apply save_edge_table_run in H1 as [-> | (p & table & _ & _ & _ & _ & ->)];
      by repeat split. }
  destruct r1 as [[] | e]; [| by intros [= <- <-]].
  unfold bind at 1.
  destruct (save_dump env terms save_file s1) as [r2 s2] eqn:H2.
  assert (Hs2 : same_but_files s s2).
  { destruct Hs1 as (? & ? & ? & ?).
    apply save_dump_run in H2 as [-> | (p & _ & _ & _ & ->)];
      by repeat split. }
  destruct r2 as [[] | e]; [| by intros [= <- <-]].
  destruct Hs2 as (? & ? & ? & ?).
  intros [-> | (_ & _ & _ & ->)]%save_report_run; by repeat split.
Qed.

(** A path that [save_results] was not told to write keeps what it
    held, however the function ends. *)
Lemma save_results_other_paths env terms save_csv save_file report report_file
    total_objects none_count full s r s' path :
  save_results env terms save_csv save_file report report_file total_objects
    none_count full s = (r, s') →
  save_csv ≠ Some path ∨ full = true →
  save_file ≠ Some path →
  (report = true → report_file ≠ path) →
  files s' !! path = files s !! path.
Proof.
  intros Hrun Hcsv Hjson Hreport. revert Hrun.
  unfold save_results. unfold bind at 1.
  destruct (save_edge_table env terms save_csv full s) as [r1 s1] eqn:H1.
  assert (Hs1 : files s1 !! path = files s !! path).
  { apply save_edge_table_run in H1
      as [-> | (p & table & _ & -> & -> & _ & ->)]; [done |].
    destruct Hcsv as [Hne | [=]]. simpl. apply lookup_insert_ne. congruence. }
  destruct r1 as [[] | e]; [| by intros [= <- <-]].
  unfold bind at 1.
  destruct (save_dump env terms save_file s1) as [r2 s2] eqn:H2.
  assert (Hs2 : files s2 !! path = files s !! path).
  { apply save_dump_run in H2 as [-> | (p & _ & -> & _ & ->)]; [done |].
    simpl. rewrite lookup_insert_ne by congruence. done. }
  destruct r2 as [[] | e]; [| by intros [= <- <-]].
  intros [-> | (_ & -> & _ & ->)]%save_report_run; [done |].
  simpl. rewrite lookup_insert_ne by by apply Hreport. done.
Qed.

(** [save_results] returns normally when the directories of the files it
    is to write exist, the report has a name, and the frame of pairs,
    where one is grouped, has string cells. *)
Lemma save_results_ok env terms save_csv save_file report report_file
    total_objects none_count full s :
  full = true ∨ truthy_path save_csv = false ∨
  (∃ rows, terms = ResList (map pair_dict rows) ∧ Forall str_cells rows) →
  (∀ p, save_csv = Some p → p ≠ "" → full = false → can_write env s p) →
  (∀ p, save_file = Some p → p ≠ "" → can_write env s p) →
  (report = true → can_write env s report_file) →
  ∃ s', save_results env terms save_csv save_file report report_file
          total_objects none_count full s = (Ok tt, s').
Proof.
  intros Hshape Hcsv Hjson Hreport. unfold save_results.
  assert (H1 : ∃ s1, save_edge_table env terms save_csv full s = (Ok tt, s1) ∧
                     dirs s1 = dirs s).
  { destruct save_csv as [p |]; [| by exists s].
    destruct (decide (p = "")) as [-> | Hp]; [by exists s |].
    destruct Hshape as [-> | [Hfalse | (rows & -> & Hstr)]].
    - exists s. unfold save_edge_table. by rewrite andb_false_r.
    - by rewrite (truthy_path_Some _ Hp) in Hfalse.
    - destruct full.
      + exists s. unfold save_edge_table. by rewrite andb_false_r.
      + rewrite save_edge_table_pairs by done.
        case_bool_decide; [by exists s |].
        rewrite to_csv_ok by (by apply Hcsv). by eexists. }
  destruct H1 as (s1 & H1 & Hd1). unfold bind at 1. rewrite H1.
  assert (H2 : ∃ s2, save_dump env terms save_file s1 = (Ok tt, s2) ∧
                     dirs s2 = dirs s).
  { unfold save_dump. destruct save_file as [p |]; [| by exists s1].
    destruct (decide (p = "")) as [-> | Hp]; [by exists s1 |].
    rewrite (truthy_path_Some _ Hp).
    destruct (Hjson p eq_refl Hp) as (? & ? & ?).
    rewrite write_file_ok by (by repeat split; rewrite ?Hd1). by eexists. }
  destruct H2 as (s2 & H2 & Hd2). unfold bind at 1. rewrite H2.
  unfold save_report. destruct report; [| by eexists].
  destruct (Hreport eq_refl) as (? & ? & ?).
  rewrite write_file_ok by (by repeat split; rewrite ?Hd2). by eexists.
Qed.

(** The edge table that [save_results] leaves at the CSV path. *)
Lemma save_results_csv_file env rows csv_path save_file report report_file
    total_objects none_count s s' :
  csv_path ≠ "" →
  Forall str_cells rows →
  save_file ≠ Some csv_path →
  (report = true → report_file ≠ csv_path) →
  save_results env (ResList (map pair_dict rows)) (Some csv_path) save_file
    report report_file total_objects none_count false s = (Ok tt, s') →
  files s' !! csv_path =
    if bool_decide (rows = []) then files s !! csv_path
    else Some (FCsv (groupby_size rows)).
Proof.
  intros Hcsv Hstr Hjson Hreport. unfold save_results. unfold bind at 1.
  rewrite save_edge_table_pairs by done.
  set (step := if bool_decide (rows = []) then _ else _).
  destruct step as [r1 s1] eqn:H1. subst step.
  assert (Hs1 : r1 = Ok tt →
                files s1 !! csv_path =
                  if bool_decide (rows = []) then files s !! csv_path
                  else Some (FCsv (groupby_size rows))).
  { intros ->. revert H1. case_bool_decide; [by intros [= <-] |].
    intros [(_ & _ & ->) | [[[=] | [=]] _]]%to_csv_run.
    simpl. apply lookup_insert_eq. }
  destruct r1 as [[] | e]; [| done]. rewrite <- (Hs1 eq_refl).
  unfold bind at 1.
  destruct (save_dump env _ save_file s1) as [r2 s2] eqn:H2.
  assert (Hs2 : files s2 !! csv_path = files s1 !! csv_path).
  { apply save_dump_run in H2 as [-> | (p & _ & -> & _ & ->)]; [done |].
    simpl. apply lookup_insert_ne. congruence. }
  destruct r2 as [[] | e]; [| done]. rewrite <- Hs2.
  intros [-> | (_ & -> & _ & ->)]%save_report_run; [done |].
  simpl. apply lookup_insert_ne. by apply Hreport.
Qed.


(** With [report] on, the report is the last thing written. *)
Lemma save_results_report_file env terms save_csv save_file report_file
    total_objects none_count full s s' :
  save_results env terms save_csv save_file true report_file total_objects
    none_count full s = (Ok tt, s') →
  files s' !! report_file
  = Some (FText (report_text total_objects (batch_len terms) none_count)).
Proof.
  unfold save_results. unfold bind at 1.
  destruct (save_edge_table env terms save_csv full s) as [[[] | e] s1];
    [| done].
  unfold bind at 1.
  destruct (save_dump env terms save_file s1) as [[[] | e] s2]; [| done].
  unfold save_report.
  intros [(_ & _ & ->) | [[[=] | [=]] _]]%write_file_run.
  simpl. apply lookup_insert_eq.
Qed.






(** A batch, once its paths are validated and its object IDs listed:
    the loop has sent a request for every object ID and left the files
    and the directories alone; what the batch returns then depends on
    [save_results] only. *)
Lemma get_terms_pairs_run env ce cp endpoint report report_file save_file
    save_csv verbose full limit s s1 objectIDs ids :
  validate_paths env [save_file; save_csv; Some report_file] s = (Ok tt, s1) →
  endpoint ≠ "" →
  listed_object_ids env ce cp limit = Ok objectIDs →
  py_iter objectIDs = Ok ids →
  ∃ s3,
    requests s3 = object_requests endpoint ids ++ collection_request ce cp
                    :: requests s ∧
    files s3 = files s ∧ dirs s3 = dirs s1 ∧
    get_terms_pairs env ce cp (Some endpoint) report report_file save_file
      save_csv verbose full limit s
    = if bool_decide (ids = []) then (Ok (ResList [], 0), s3)
      else
        let (r, s') :=
          save_results env (ResList (accumulated_terms env endpoint full ids))
            save_csv save_file report report_file (length ids)
            (length (failed env endpoint full ids)) full s3 in
        (result_bind r (λ _, Ok (ResList (accumulated_terms env endpoint full ids),
                                 length (failed env endpoint full ids))), s').
Proof.
  intros Hval Hep Hlisted Hiter.
  destruct (validate_paths_traffic _ _ _ _ _ Hval) as [Hreq1 Hfiles1].
  unfold get_terms_pairs. unfold bind at 1. rewrite Hval.
  rewrite bool_decide_eq_false_2 by done.
  unfold bind at 1. rewrite fresh_limiter_init. unfold lift at 1.
  unfold bind at 1. rewrite get_object_ids_run, Hlisted.
  set (s2 := sent env (collection_request ce cp) s1).
  assert (Hreq2 : requests s2 = collection_request ce cp :: requests s)
    by (by subst s2; simpl; rewrite Hreq1).
  assert (Hfiles2 : files s2 = files s) by done.
  assert (Hdirs2 : dirs s2 = dirs s1) by done.
  clearbody s2.
  rewrite (py_iter_bool _ _ Hiter), negb_involutive.
  case_bool_decide as Hnil.
  - subst ids. by exists s2.
  - unfold bind at 1. rewrite Hiter. unfold lift at 1.
    destruct (pairs_loop_run env endpoint full verbose ids fresh_limiter [] 0 s2
                fresh_limiter_pos)
      as (s3 & Hloop & (Hdirs3 & Hfiles3 & _) & Hreq3).
    unfold bind at 1. rewrite Hloop. simpl.
    unfold bind at 1. rewrite (py_iter_len _ _ Hiter). unfold lift at 1.
    exists s3. split; [by rewrite Hreq3, Hreq2 |].
    split; [congruence |]. split; [congruence |].
    unfold bind at 1. by destruct (save_results _ _ _ _ _ _ _ _ _ _) as [[[] | e] s4].
Qed.

Lemma get_terms_from_collection_run env ce cp endpoint report report_file
    save_file save_csv verbose limit s s1 objectIDs ids :
  validate_paths env [save_file; save_csv; Some report_file] s = (Ok tt, s1) →
  endpoint ≠ "" →
  listed_object_ids env ce cp limit = Ok objectIDs →
  py_iter objectIDs = Ok ids →
  Forall is_identifier ids →
  ∃ s3,
    requests s3 = object_requests endpoint ids ++ collection_request ce cp
                    :: requests s ∧
    files s3 = files s ∧ dirs s3 = dirs s1 ∧
    get_terms_from_collection env ce cp (Some endpoint) report report_file
      save_file save_csv verbose limit s
    = if bool_decide (ids = []) then (Ok (ResList [], 0), s3)
      else
        let (r, s') :=
          save_results env (ResDict (accumulated_dict env endpoint [] ids))
            save_csv save_file report report_file (length ids)
            (length (failed env endpoint true ids)) true s3 in
        (result_bind r (λ _, Ok (ResDict (accumulated_dict env endpoint [] ids),
                                 length (failed env endpoint true ids))), s').
Proof.
  intros Hval Hep Hlisted Hiter Hids.
  destruct (validate_paths_traffic _ _ _ _ _ Hval) as [Hreq1 Hfiles1].
  unfold get_terms_from_collection. unfold bind at 1. rewrite Hval.
  rewrite bool_decide_eq_false_2 by done.
  unfold bind at 1. rewrite fresh_limiter_init. unfold lift at 1.
  unfold bind at 1. rewrite get_object_ids_run, Hlisted.
  set (s2 := sent env (collection_request ce cp) s1).
  assert (Hreq2 : requests s2 = collection_request ce cp :: requests s)
    by (by subst s2; simpl; rewrite Hreq1).
  assert (Hfiles2 : files s2 = files s) by done.
  assert (Hdirs2 : dirs s2 = dirs s1) by done.
  clearbody s2.
  rewrite (py_iter_bool _ _ Hiter), negb_involutive.
  case_bool_decide as Hnil.
  - subst ids. by exists s2.
  - unfold bind at 1. rewrite Hiter. unfold lift at 1.
    destruct (collection_loop_run env endpoint verbose ids fresh_limiter [] 0 s2
                fresh_limiter_pos Hids)
      as (s3 & Hloop & (Hdirs3 & Hfiles3 & _) & Hreq3).
    unfold bind at 1. rewrite Hloop. simpl.
    unfold bind at 1. rewrite (py_iter_len _ _ Hiter). unfold lift at 1.
    exists s3. split; [by rewrite Hreq3, Hreq2 |].
    split; [congruence |]. split; [congruence |].
    unfold bind at 1. by destruct (save_results _ _ _ _ _ _ _ _ _ _) as [[[] | e] s4].
Qed.

(** The conditions of [save_results_ok] after a validation of the three
    paths. *)
Lemma validated_destinations env save_file save_csv report report_file s s1 s3 :
  validate_paths env [save_file; save_csv; Some report_file] s = (Ok tt, s1) →
  dirs s3 = dirs s1 →
  destinations_writable env save_file save_csv report report_file →
  (∀ p, save_csv = Some p → p ≠ "" → can_write env s3 p) ∧
  (∀ p, save_file = Some p → p ≠ "" → can_write env s3 p) ∧
  (report = true → can_write env s3 report_file).
Proof.
  intros [_ Hdirs]%validate_paths_dirs Hsame (Hjson & Hcsv & Hreport).
  specialize (Hdirs eq_refl). unfold can_write. rewrite Hsame.
  split; [| split].
  - intros p -> Hp. split; [done |]. split; [| by apply Hcsv].
    apply Hdirs. right; left.
  - intros p -> Hp. split; [done |]. split; [| by apply Hjson].
    apply Hdirs. left.
  - intros Hr. destruct (Hreport Hr) as [Hname Hw]. split; [done |].
    split; [| done]. apply Hdirs. right; right; left.
Qed.



(** ** Preconditions of a batch *)




(** A destination left as [None] stops both batch functions in path
    validation, before any request and before any file is written. *)
Lemma omitted_destination_raises env ce cp object_endpoint report report_file
    save_file save_csv verbose full limit s :
  save_file = None ∨ save_csv = None →
  (∃ e s', get_terms_pairs env ce cp object_endpoint report report_file
             save_file save_csv verbose full limit s = (Raise e, s') ∧
           same_traffic s s') ∧
  (∃ e s', get_terms_from_collection env ce cp object_endpoint report
             report_file save_file save_csv verbose limit s = (Raise e, s') ∧
           same_traffic s s').
Proof.
  intros Hnone.
  destruct (validate_paths_None env [save_file; save_csv; Some report_file] s)
    as (e & s' & Hval & Htraffic).
  { destruct Hnone as [-> | ->]; [left | right; left]. }
  unfold get_terms_pairs, get_terms_from_collection, bind. rewrite Hval.
  split; by exists e, s'.
Qed.

(** C9 fails on the code: the call of [collectRawData.py], which leaves
    [save_csv] out, and a call of [get_terms_pairs] that leaves
    [save_file] out both stop with the TypeError of
    [os.path.abspath(None)]; nothing is requested and nothing is written. *)
Theorem omitted_destination_stops_the_batch :
  get_terms_from_collection demo_env demo_base (Some [("departmentIds", "17")])
    (Some demo_base) true "data/raw/report.txt" (Some "data/raw/tags.json")
    None true None lonely_state
  = (Raise TypeError, lonely_state) ∧
  get_terms_pairs demo_env demo_base (Some [("departmentIds", "17")])
    (Some demo_base) false "report.txt" None (Some "data/pairs.csv")
    true false None lonely_state
  = (Raise TypeError, lonely_state).
Proof. split; vm_compute; reflexivity. Qed.

(** ** The offline deriver against the pairs batch *)

(** Decoding a JSON object without repeated keys keeps its members. *)
Lemma dict_of_pairs_NoDup pairs :
  NoDup (map fst pairs) → dict_of_pairs pairs = pairs.
Proof.
  unfold dict_of_pairs.
  enough (H : ∀ d, NoDup (map fst (d ++ pairs)) → foldl dict_put d pairs = d ++ pairs)
    by apply (H []).
  induction pairs as [| kv rest IH]; intros d Hnd; simpl.
  - by rewrite app_nil_r.
  - unfold dict_put at 2. rewrite bool_decide_eq_false_2.
    + rewrite IH; rewrite <- app_assoc; done.
    + rewrite map_app in Hnd. simpl in Hnd.
      apply NoDup_app in Hnd as (_ & Hdisj & _).
      intros Hin. apply (Hdisj _ Hin). left.
Qed.

Lemma json_loads_strs terms :
  Forall is_str terms → map json_loads terms = terms.
Proof.
  induction 1 as [| t rest Ht Hrest IH]; simpl; [done |].
  rewrite IH. by destruct t.
Qed.


(** The loop of the deriver over a mapping whose values are lists. *)
Lemma pairs_of_items_lists {A} (key : A → string) (terms_of : A → list json) l :
  ∀ terms_list,
    pairs_of_items (map (λ x, (key x, JArr (terms_of x))) l) terms_list =
      Ok (terms_list ++
          flat_map (λ x, if 1 <? length (terms_of x)
                         then map pair_dict (combinations2 (terms_of x))
                         else []) l).
Proof.
  induction l as [| x rest IH]; intros terms_list; simpl.
  - by rewrite app_nil_r.
  - destruct (1 <? length (terms_of x)); simpl; rewrite IH.
    + by rewrite <- app_assoc.
    + done.
Qed.






(** The deriver once its loop has collected pair dicts with string
    cells: it raises for want of a pair, or hands the grouped table to
    [to_csv]. *)
Lemma create_term_pairs_rows env raw_terms_file processed_terms_file t text
    items rows :
  files t !! raw_terms_file = Some (FJson text) →
  py_items (json_loads text) = Ok items →
  pairs_of_items items [] = Ok (map pair_dict rows) →
  Forall str_cells rows →
  create_term_pairs env raw_terms_file processed_terms_file t =
    if bool_decide (rows = []) then (Raise (UnboundLocalError "df"), t)
    else
      let (r, t') := to_csv env processed_terms_file (groupby_size rows) t in
      (result_bind r (λ _, Ok (EdgeFrame (groupby_size rows))), t').
Proof.
  intros Hfile Hitems Hloop Hstr.
  unfold create_term_pairs, bind at 1, json_load. rewrite Hfile.
  unfold bind at 1, lift at 1. rewrite Hitems.
  unfold bind at 1, lift at 1. rewrite Hloop.
  case_bool_decide as Hnil.
  - by rewrite Hnil.
  - assert (Hlen : (0 <? length (map pair_dict rows)) = true)
      by (by destruct rows).
    rewrite Hlen. unfold bind at 1, lift at 1. rewrite DataFrame_pair_dicts.
    rewrite bool_decide_eq_false_2 by done. simpl.
    unfold bind at 1, lift at 1. rewrite groupby_weight_strs by done.
    unfold bind, ret.
    by destruct (to_csv env processed_terms_file (groupby_size rows) t)
      as [[[] | e] t'].
Qed.





(** ** What does hold of the rate limiter and of the JSON keys *)

Lemma length_drop_expired now calls :
  length (drop_expired now calls) ≤ length calls.
Proof.
  induction calls as [| oldest rest IH]; simpl; [done |].
  destruct (one_second <? now - oldest)%Z; simpl; lia.
Qed.

(** X2: as long as the calls recorded so far and the calls to come are
    no more than the rate allows, no call is delayed: each is let through
    at the time it enters. *)
Lemma calls_within_the_limit_are_not_delayed gaps :
  ∀ limiter s,
    (inject_Z (Z.of_nat (length (calls_made limiter) + length gaps))
     <= calls_per_second limiter)%Q →
    fst (issue_calls limiter gaps s) = Ok (entry_times (clock s) gaps).
Proof.
  induction gaps as [| gap rest IH]; intros limiter s Hroom; [done |].
  cbn [issue_calls entry_times]. unfold bind at 1, time_sleep at 1.
  set (s1 := set_clock (clock s + gap) s).
  assert (Hbelow : (inject_Z (Z.of_nat (length (drop_expired (clock s1)
                                                  (calls_made limiter))))
                    < calls_per_second limiter)%Q).
  { eapply Qlt_le_trans; [| exact Hroom]. rewrite <- Zlt_Qlt.
    pose proof (length_drop_expired (clock s1) (calls_made limiter)).
    simpl length. change (clock s1) with (clock s + gap)%Z in *. lia. }
  unfold bind at 1. rewrite (wait_if_necessary_below_limit limiter s1 Hbelow).
  unfold bind at 1, datetime_now at 1. unfold bind at 1.
  set (limiter' := {| calls_per_second := _; minimum_interval := _;
                      calls_made := _ |}).
  assert (Hroom' : (inject_Z (Z.of_nat (length (calls_made limiter')
                                         + length rest))
                    <= calls_per_second limiter')%Q).
  { eapply Qle_trans; [| exact Hroom]. rewrite <- Zle_Qle.
    subst limiter'; cbn [calls_made]. rewrite length_app; simpl length.
    pose proof (length_drop_expired (clock s + gap) (calls_made limiter)). lia. }
  specialize (IH limiter' s1 Hroom').
  destruct (issue_calls limiter' rest s1) as [[later | e] s2];
    simpl in IH |- *; [| done].
  by injection IH as ->.
Qed.

(** Integer object IDs that are distinct have distinct JSON keys. *)
Lemma NoDup_json_key_ints ids :
  Forall is_int ids → NoDup ids → NoDup (map json_key ids).
Proof.
  intros Hints Hnd. apply NoDup_fmap_2_strong; [| done].
  intros a b Ha Hb. rewrite Forall_forall in Hints.
  pose proof (Hints a Ha) as Hia. pose proof (Hints b Hb) as Hib.
  destruct a, b; try done. simpl. intros Heq. f_equal.
  by apply (inj pretty).
Qed.

(** * Further properties of the code *)

(** ** class RateLimiter *)

(** X1: no limiter with a negative rate gets past its first call. The
    constructor raises OverflowError when the inverse of the rate does
    not fit a [timedelta]; a limiter that is built fails at its first
    call, where the limit counts as reached on the empty deque and
    [self.calls_made[0]] raises IndexError. The state is untouched. *)
Theorem negative_rate_raises_IndexError (rate : Q) s :
  (rate < 0)%Q →
  RateLimiter_init rate = Raise OverflowError ∨
  ∃ limiter,
    RateLimiter_init rate = Ok limiter ∧
    wait_if_necessary limiter s = (Raise IndexError, s).
Proof.
  intros Hneg. unfold RateLimiter_init.
  destruct (Qeq_bool rate 0) eqn:Hzero.
  { apply Qeq_bool_iff in Hzero. rewrite Hzero in Hneg.
    by apply Qlt_irrefl in Hneg. }
  unfold timedelta_seconds.
  destruct (_ || _); simpl; [by left | right].
  eexists. split; [reflexivity |].
  unfold wait_if_necessary, bind, datetime_now; simpl.
  assert (Hfull : Qle_bool rate (inject_Z (Z.of_nat 0)) = true)
    by (apply Qle_bool_iff; by apply Qlt_le_weak).
  by rewrite Hfull.
Qed.

(** A rate of minus one call per second. *)
Lemma negative_rate_raises_IndexError_witness :
  ∃ limiter,
    RateLimiter_init (-1) = Ok limiter ∧
    wait_if_necessary limiter demo_state = (Raise IndexError, demo_state).
Proof.
  destruct (negative_rate_raises_IndexError (-1) demo_state) as [Hover | Hcall].
  - reflexivity.
  - vm_compute in Hover. discriminate Hover.
  - exact Hcall.
Defined.

(** Two calls on the limiter of the batch functions. *)
Lemma calls_within_the_limit_are_not_delayed_witness :
  fst (issue_calls fresh_limiter [0; 5]%Z demo_state)
  = Ok (entry_times (clock demo_state) [0; 5]%Z).
Proof.
  apply (calls_within_the_limit_are_not_delayed [0; 5]%Z fresh_limiter demo_state).
  unfold Qle; simpl; lia.
Defined.

Lemma drop_expired_sorted now calls :
  StronglySorted Z.le calls → StronglySorted Z.le (drop_expired now calls).
Proof.
  induction 1 as [| oldest rest Hrest IH Hhd]; simpl; [constructor |].
  destruct (one_second <? now - oldest)%Z; [done | by constructor].
Qed.

Lemma drop_expired_Forall (P : Z → Prop) now calls :
  Forall P calls → Forall P (drop_expired now calls).
Proof.
  induction 1 as [| oldest rest Hold Hrest IH]; simpl; [constructor |].
  destruct (one_second <? now - oldest)%Z; [done | by constructor].
Qed.

(** What [drop_expired] keeps of an ordered deque is at most one second
    old. *)
Lemma drop_expired_recent now calls :
  StronglySorted Z.le calls →
  Forall (λ t, (now - one_second ≤ t)%Z) (drop_expired now calls).
Proof.
  induction 1 as [| oldest rest Hrest IH Hhd]; simpl; [constructor |].
  destruct (Z.ltb_spec one_second (now - oldest)); [done |].
  constructor; [lia |].
  eapply Forall_impl; [exact Hhd |]. simpl. lia.
Qed.

Lemma StronglySorted_snoc calls now :
  StronglySorted Z.le calls → Forall (λ t, (t ≤ now)%Z) calls →
  StronglySorted Z.le (calls ++ [now]).
Proof.
  induction 1 as [| oldest rest Hrest IH Hhd]; intros Hle; simpl.
  - repeat constructor.
  - apply Forall_cons in Hle as [Hold Hle]. constructor; [by apply IH |].
    apply Forall_app. split; [done | by constructor].
Qed.

(** X3: on a limiter with a positive rate whose deque is in time order
    and holds no time of the future, a call returns; it sleeps for at
    most one second; it touches neither the files nor the network; the
    deque stays in time order, it keeps only times of the second before
    the call entered, and its last element is the time the call entered
    (not the time it was let through). *)
Theorem wait_if_necessary_keeps_the_window self s :
  (0 < calls_per_second self)%Q →
  StronglySorted Z.le (calls_made self) →
  Forall (λ t, (t ≤ clock s)%Z) (calls_made self) →
  ∃ self' s',
    wait_if_necessary self s = (Ok self', s') ∧
    (clock s ≤ clock s' ≤ clock s + one_second)%Z ∧
    same_disk s s' ∧ requests s' = requests s ∧
    StronglySorted Z.le (calls_made self') ∧
    Forall (λ t, (clock s - one_second ≤ t ≤ clock s)%Z) (calls_made self') ∧
    last (calls_made self') = Some (clock s).
Proof.
  intros Hpos Hsorted Hpast.
  pose proof (drop_expired_sorted (clock s) _ Hsorted) as Hsorted'.
  pose proof (drop_expired_Forall _ (clock s) _ Hpast) as Hpast'.
  pose proof (drop_expired_recent (clock s) _ Hsorted) as Hrecent.
  assert (Hdeque : StronglySorted Z.le
                     (drop_expired (clock s) (calls_made self) ++ [clock s]) ∧
                   Forall (λ t, (clock s - one_second ≤ t ≤ clock s)%Z)
                     (drop_expired (clock s) (calls_made self) ++ [clock s])).
  { split; [by apply StronglySorted_snoc |].
    apply Forall_app. split.
    - rewrite Forall_forall in Hpast', Hrecent. apply Forall_forall.
      intros t Ht. split; [by apply Hrecent | by apply Hpast'].
    - constructor; [unfold one_second; lia | constructor]. }
  destruct Hdeque as [Hs Hw].
  unfold wait_if_necessary, bind, datetime_now.
  destruct (Qle_bool _ _) eqn:Hfull.
  - destruct (drop_expired (clock s) (calls_made self)) as [| oldest rest] eqn:Hq.
    + apply Qle_bool_iff in Hfull. simpl in Hfull.
      exfalso. by apply (Qlt_not_le _ _ Hpos).
    + apply Forall_cons in Hpast' as [Hold _].
      destruct (Z.ltb_spec 0 (oldest + one_second - clock s)); simpl.
      * unfold time_sleep, ret. eexists _, _. split; [reflexivity |].
        simpl. split; [lia |]. split; [done |]. split; [done |].
        split; [done |]. split; [done |].
        change (last ((oldest :: rest) ++ [clock s]) = Some (clock s)).
        apply last_snoc.
      * unfold ret. eexists _, _. split; [reflexivity |].
        simpl. split; [unfold one_second; lia |]. split; [done |].
        split; [done |]. split; [done |]. split; [done |].
        change (last ((oldest :: rest) ++ [clock s]) = Some (clock s)).
        apply last_snoc.
  - unfold ret. eexists _, _. split; [reflexivity |].
    simpl. split; [unfold one_second; lia |]. split; [done |].
    split; [done |]. split; [done |]. split; [done |]. apply last_snoc.
Qed.

(** The limiter with two recorded calls, two milliseconds in. *)
Lemma wait_if_necessary_keeps_the_window_witness :
  ∃ self' s',
    wait_if_necessary busy_limiter busy_state = (Ok self', s') ∧
    (clock busy_state ≤ clock s' ≤ clock busy_state + one_second)%Z ∧
    same_disk busy_state s' ∧ requests s' = requests busy_state ∧
    StronglySorted Z.le (calls_made self') ∧
    Forall (λ t, (clock busy_state - one_second ≤ t ≤ clock busy_state)%Z)
      (calls_made self') ∧
    last (calls_made self') = Some (clock busy_state).
Proof.
  apply (wait_if_necessary_keeps_the_window busy_limiter busy_state).
  - reflexivity.
  - repeat constructor; simpl; lia.
  - repeat constructor; simpl; lia.
Defined.

(** X4: when the calls of the last second have reached the rate, the
    call is let through exactly when the oldest of them is one second
    old, or at once if it already is; the deque then holds those calls
    and the time of entry. *)
Theorem reached_limit_waits_for_the_oldest_call self s oldest rest :
  drop_expired (clock s) (calls_made self) = oldest :: rest →
  (calls_per_second self <= inject_Z (Z.of_nat (length (oldest :: rest))))%Q →
  ∃ self' s',
    wait_if_necessary self s = (Ok self', s') ∧
    clock s' = Z.max (clock s) (oldest + one_second) ∧
    calls_made self' = oldest :: rest ++ [clock s].
Proof.
  intros Hq Hfull. apply Qle_bool_iff in Hfull.
  unfold wait_if_necessary, bind, datetime_now. rewrite Hq, Hfull.
  destruct (Z.ltb_spec 0 (oldest + one_second - clock s)); simpl.
  - unfold time_sleep, ret. eexists _, _. split; [reflexivity |].
    simpl. split; [lia | done].
  - unfold ret. eexists _, _. split; [reflexivity |].
    simpl. split; [lia | done].
Qed.

Lemma reached_limit_waits_for_the_oldest_call_witness :
  ∃ self' s',
    wait_if_necessary busy_limiter busy_state = (Ok self', s') ∧
    clock s' = Z.max (clock busy_state) (0 + one_second) ∧
    calls_made self' = (0 :: [1000] ++ [clock busy_state])%Z.
Proof.
  apply (reached_limit_waits_for_the_oldest_call busy_limiter busy_state 0 [1000%Z]).
  - reflexivity.
  - unfold Qle; simpl; lia.
Defined.

(** ** validate_paths *)

(** X5: when the directory of every path exists, validation returns
    without asking anything and leaves the state as it was. *)
Theorem validate_paths_existing_dirs env filepaths s :
  Forall (λ p, ∃ f, p = Some f ∧ parent_dir env f ∈ dirs s) filepaths →
  validate_paths env filepaths s = (Ok tt, s).
Proof.
  induction 1 as [| p rest (f & -> & Hdir) Hrest IH]; simpl; [done |].
  unfold bind, path_exists. by rewrite bool_decide_eq_true_2.
Qed.

Lemma validate_paths_existing_dirs_witness :
  validate_paths demo_env [Some "data/a.json"; Some "data/b.csv"] lonely_state
  = (Ok tt, lonely_state).
Proof.
  apply (validate_paths_existing_dirs demo_env
           [Some "data/a.json"; Some "data/b.csv"] lonely_state).
  repeat constructor; eexists; (split; [reflexivity |]);
    apply (bool_decide_unpack _); vm_compute; exact I.
Defined.

(** One path, with a user who answers [y]. *)
Lemma validate_path_confirmed env f s :
  (∀ line, line ∈ stdin s → line = "y" ∨ line = "Y") →
  1 ≤ length (stdin s) →
  ∃ s',
    validate_path env (Some f) s = (Ok tt, s') ∧
    parent_dir env f ∈ dirs s' ∧ dirs s ⊆ dirs s' ∧
    requests s' = requests s ∧ files s' = files s ∧ clock s' = clock s ∧
    stdin s' `suffix_of` stdin s ∧ length (stdin s) ≤ S (length (stdin s')).
Proof.
  intros Hyes Hlen. unfold validate_path, bind, path_exists.
  case_bool_decide as Hdir.
  - exists s. repeat split; try done. lia.
  - unfold input. destruct (stdin s) as [| line rest] eqn:Hin; [simpl in Hlen; lia |].
    rewrite bool_decide_eq_true_2 by (apply Hyes; left).
    unfold makedirs. eexists. split; [reflexivity |]. simpl.
    repeat split; try done; try (by apply suffix_cons_r).
    + apply elem_of_union; left. apply elem_of_union; right.
      by apply elem_of_singleton.
    + intros d Hd. apply elem_of_union; left. apply elem_of_union; by left.
Qed.

(** X6: when every path is given and the user answers [y] as often as
    there are paths, validation returns; afterwards the directory of
    every path exists; no directory has gone; no request was sent and no
    file written; at most one answer per path was read. *)
Theorem validate_paths_creates_confirmed_dirs env filepaths s :
  Forall is_Some filepaths →
  (∀ line, line ∈ stdin s → line = "y" ∨ line = "Y") →
  length filepaths ≤ length (stdin s) →
  ∃ s',
    validate_paths env filepaths s = (Ok tt, s') ∧
    (∀ f, Some f ∈ filepaths → parent_dir env f ∈ dirs s') ∧
    dirs s ⊆ dirs s' ∧
    requests s' = requests s ∧ files s' = files s ∧ clock s' = clock s ∧
    stdin s' `suffix_of` stdin s ∧
    length (stdin s) ≤ length filepaths + length (stdin s').
Proof.
  intros Hsome. revert s.
  induction Hsome as [| p rest [f ->] Hrest IH]; intros s Hyes Hlen.
  - exists s. repeat split; try done. intros f Hf. inversion Hf.
  - simpl in Hlen.
    destruct (validate_path_confirmed env f s Hyes ltac:(lia))
      as (s1 & Hrun1 & Hdir1 & Hsub1 & Hreq1 & Hfiles1 & Hclock1 & Hsuf1 & Hlen1).
    destruct (IH s1) as (s' & Hrun & Hdirs & Hsub & Hreq & Hfiles & Hclock
                            & Hsuf & Hlen').
    { intros line Hline. apply Hyes.
      destruct Hsuf1 as [skipped ->]. apply elem_of_app. by right. }
    { lia. }
    exists s'. cbn [validate_paths]. unfold bind. rewrite Hrun1.
    split; [done |]. split; [| split; [by etrans | split; [congruence |
      split; [congruence | split; [congruence | split]]]]].
    + intros g [[= ->] | Hg]%elem_of_cons; [by apply Hsub | by apply Hdirs].
    + by etrans.
    + simpl. lia.
Qed.

(** The three paths of a pairs batch in the demo world, where one
    directory is missing and the user answers [y] three times. *)
Lemma validate_paths_creates_confirmed_dirs_witness :
  ∃ s',
    validate_paths demo_env
      [Some "data/pairs.json"; Some "data/pairs.csv"; Some "report.txt"]
      (set_stdin ["y"; "y"; "y"] demo_state) = (Ok tt, s') ∧
    parent_dir demo_env "data/pairs.csv" ∈ dirs s' ∧
    length (stdin s') = 2.
Proof.
  destruct (validate_paths_creates_confirmed_dirs demo_env
              [Some "data/pairs.json"; Some "data/pairs.csv"; Some "report.txt"]
              (set_stdin ["y"; "y"; "y"] demo_state))
    as (s' & Hrun & Hdirs & _).
  - repeat constructor; by eexists.
  - simpl. intros line Hline.
    repeat (apply elem_of_cons in Hline as [-> | Hline]; [by left |]).
    inversion Hline.
  - simpl. lia.
  - exists s'. split; [exact Hrun |]. split.
    + apply Hdirs. right; left.
    + vm_compute in Hrun. by injection Hrun as <-.
Defined.

(** X7: when the directory of [save_file] is missing and the user
    answers anything but [y], both batch functions raise
    FileNotFoundError for that directory; the answer is consumed, and
    nothing else has changed: no directory, no request, no file. *)
Theorem declined_directory_aborts_the_batch env ce cp object_endpoint report
    report_file save_path save_csv verbose full limit s line rest :
  parent_dir env save_path ∉ dirs s →
  stdin s = line :: rest →
  line ≠ "y" → line ≠ "Y" →
  get_terms_pairs env ce cp object_endpoint report report_file (Some save_path)
    save_csv verbose full limit s
  = (Raise (FileNotFoundError (parent_dir env save_path)), set_stdin rest s) ∧
  get_terms_from_collection env ce cp object_endpoint report report_file
    (Some save_path) save_csv verbose limit s
  = (Raise (FileNotFoundError (parent_dir env save_path)), set_stdin rest s).
Proof.
  intros Hdir Hin Hy HY.
  assert (Hval : validate_paths env [Some save_path; save_csv; Some report_file] s
                 = (Raise (FileNotFoundError (parent_dir env save_path)),
                    set_stdin rest s)).
  { simpl. unfold bind at 1. unfold validate_path, bind, path_exists.
    rewrite bool_decide_eq_false_2 by done. unfold input. rewrite Hin.
    rewrite bool_decide_eq_false_2 by (by intros [? | ?]). done. }
  unfold get_terms_pairs, get_terms_from_collection, bind. by rewrite Hval.
Qed.

Lemma declined_directory_aborts_the_batch_witness :
  get_terms_pairs demo_env demo_base None (Some demo_base) true "report.txt"
    (Some "data/pairs.json") (Some "data/pairs.csv") false false None
    (set_stdin ["n"] demo_state)
  = (Raise (FileNotFoundError (parent_dir demo_env "data/pairs.json")),
     set_stdin [] (set_stdin ["n"] demo_state)).
Proof.
  refine (proj1 (declined_directory_aborts_the_batch demo_env demo_base None
                   (Some demo_base) true "report.txt" "data/pairs.json"
                   (Some "data/pairs.csv") false false None
                   (set_stdin ["n"] demo_state) "n" [] _ _ _ _)).
  - apply (bool_decide_unpack _). vm_compute. exact I.
  - reflexivity.
  - discriminate.
  - discriminate.
Defined.

(** ** get_terms_from_endpoint and process_object_terms *)

Lemma comprehension_Forall2 {A B} (f : A → result B) items values :
  Forall2 (λ v w, f v = Ok w) items values →
  comprehension f items = Ok values.
Proof.
  induction 1 as [| v w items values Hv Hrest IH]; simpl; [done |].
  by rewrite Hv, IH.
Qed.

Lemma comprehension_raise {A B} (f : A → result B) items e :
  comprehension f items = Raise e → ∃ v, v ∈ items ∧ f v = Raise e.
Proof.
  induction items as [| v rest IH]; simpl; [done |].
  destruct (f v) as [w | e'] eqn:Hv; simpl.
  - destruct (comprehension f rest) as [ws | e'']; simpl; [done |].
    intros [= ->]. destruct (IH eq_refl) as (u & Hu & Hfu).
    exists u. split; [by right | done].
  - intros [= ->]. exists v. split; [left | done].
Qed.

(** X8: in full-list mode the result is the list of the [term] values of
    the tags, in the order of the [tags] array, whatever else the body
    and the tags hold; [process_object_terms] reports it as a success
    unless the array is empty. *)
Theorem full_list_returns_terms_in_tag_order env endpoint objectID data tags
    terms :
  respond env (object_request endpoint (py_str objectID)) = Body data →
  py_getitem data "tags" = Ok (JArr tags) →
  Forall2 (λ tag term, py_getitem tag "term" = Ok term) tags terms →
  (∀ s, fst (get_terms_from_endpoint env endpoint (py_str objectID) true s)
        = Ok (Some terms)) ∧
  (∀ verbose s,
     fst (process_object_terms env endpoint objectID true verbose s)
     = Ok (terms, negb (bool_decide (terms = [])))) ∧
  length terms = length tags.
Proof.
  intros Hbody Htags Hterms.
  assert (Hfetch : fetch_terms env endpoint (py_str objectID) true
                   = Ok (Some terms)).
  { unfold fetch_terms, fetch. rewrite Hbody; simpl.
    unfold terms_of_data. rewrite Htags; simpl.
    by rewrite (comprehension_Forall2 _ _ _ Hterms). }
  split; [| split].
  - intros s. by rewrite get_terms_from_endpoint_run.
  - intros verbose s. rewrite process_object_terms_run. unfold object_result.
    rewrite Hfetch. by destruct terms.
  - symmetry. by eapply Forall2_length.
Qed.

(** Object 2 of the demo world. *)
Lemma full_list_returns_terms_in_tag_order_witness :
  fst (get_terms_from_endpoint demo_env demo_base (py_str (JInt 2)) true
         demo_state)
  = Ok (Some [JStr "Saints"; JStr "Angels"]).
Proof.
  refine (proj1 (full_list_returns_terms_in_tag_order demo_env demo_base (JInt 2)
                   (tags_body ["Saints"; "Angels"])
                   [JObj [("term", JStr "Saints")]; JObj [("term", JStr "Angels")]]
                   [JStr "Saints"; JStr "Angels"] _ _ _) demo_state).
  - reflexivity.
  - reflexivity.
  - repeat constructor.
Defined.

(** X9: whether the extraction raises, and what it raises, does not
    depend on the mode: the terms are extracted before the mode is
    looked at. *)
Theorem extraction_raises_alike_in_both_modes env endpoint objectID e s s' :
  fst (get_terms_from_endpoint env endpoint objectID true s) = Raise e ↔
  fst (get_terms_from_endpoint env endpoint objectID false s') = Raise e.
Proof.
  rewrite !get_terms_from_endpoint_run; simpl. unfold fetch_terms.
  destruct (fetch env _) as [data | e']; simpl; [| done].
  rewrite terms_of_data_modes.
  destruct (terms_of_data data true) as [[terms |] | e']; simpl; [| done | done].
  by destruct (1 <? length terms).
Qed.

Lemma py_getitem_raise x key e :
  py_getitem x key = Raise e → e = TypeError ∨ e = KeyError key.
Proof.
  destruct x; simpl; try (intros [= <-]; by left).
  destruct (assoc key fields); [done | intros [= <-]; by right].
Qed.

Lemma terms_of_data_raise data full e :
  terms_of_data data full = Raise e →
  e = TypeError ∨ e = KeyError "tags" ∨ e = KeyError "term".
Proof.
  unfold terms_of_data.
  destruct (py_getitem data "tags") as [tags | e'] eqn:Htags; simpl.
  - destruct (py_iter tags) as [items | e''] eqn:Hiter; simpl.
    + destruct (comprehension _ items) as [terms | e3] eqn:Hcomp; simpl.
      * destruct full; [done |]. by destruct (1 <? length terms).
      * intros [= ->]. apply comprehension_raise in Hcomp as (tag & _ & Htag).
        apply py_getitem_raise in Htag as [-> | ->]; tauto.
    + intros [= ->]. destruct tags; simpl in Hiter; try done;
        injection Hiter as <-; by left.
  - intros [= ->]. apply py_getitem_raise in Htags as [-> | ->]; tauto.
Qed.

Lemma fetch_raise env rq e :
  fetch env rq = Raise e → e ≠ HTTPStatusError ∧ e ≠ JSONDecodeError.
Proof.
  unfold fetch. destruct (respond env rq) as [| | | data | e']; try done;
    try (by intros [= <-]).
  destruct e'; by intros [= <-].
Qed.

(** X10: an exception that leaves [get_terms_from_endpoint] is either
    the one that left [get_api_data], or, once the body is decoded, a
    TypeError or a KeyError for [tags] or for [term] from the
    extraction; it is never an HTTPStatusError or a JSONDecodeError,
    which [get_api_data] turns into plain exceptions. *)
Theorem get_terms_from_endpoint_exceptions env endpoint objectID full s e :
  fst (get_terms_from_endpoint env endpoint objectID full s) = Raise e →
  e ≠ HTTPStatusError ∧ e ≠ JSONDecodeError ∧
  (fst (get_api_data env (endpoint +:+ "/" +:+ objectID) None s) = Raise e ∨
   ∃ data,
     fst (get_api_data env (endpoint +:+ "/" +:+ objectID) None s) = Ok data ∧
     (e = TypeError ∨ e = KeyError "tags" ∨ e = KeyError "term")).
Proof.
  rewrite get_terms_from_endpoint_run, get_api_data_run; simpl.
  unfold fetch_terms, object_request.
  destruct (fetch env _) as [data | e'] eqn:Hfetch; simpl.
  - intros Hraise. apply terms_of_data_raise in Hraise.
    split; [| split; [| right; by exists data]];
      destruct Hraise as [-> | [-> | ->]]; done.
  - intros [= <-]. apply fetch_raise in Hfetch as [? ?].
    split; [done |]. split; [done | by left].
Qed.

(** Object 4 of the demo world, whose [tags] is null. *)
Lemma get_terms_from_endpoint_exceptions_witness :
  TypeError ≠ HTTPStatusError ∧ TypeError ≠ JSONDecodeError ∧
  (fst (get_api_data demo_env (demo_base +:+ "/" +:+ "4") None demo_state)
   = Raise TypeError ∨
   ∃ data,
     fst (get_api_data demo_env (demo_base +:+ "/" +:+ "4") None demo_state)
     = Ok data ∧
     (TypeError = TypeError ∨ TypeError = KeyError "tags" ∨
      TypeError = KeyError "term")).
Proof.
  apply (get_terms_from_endpoint_exceptions demo_env demo_base "4" false
           demo_state TypeError).
  reflexivity.
Defined.

Lemma succeeds_pairs_raw env endpoint id :
  succeeds env endpoint false id = true → succeeds env endpoint true id = true.
Proof.
  unfold succeeds. rewrite object_result_pairs; simpl.
  unfold object_pairs, object_result.
  destruct (fetch_terms env endpoint (py_str id) true) as [[[| t ts] |] | e];
    simpl; try done.
Qed.

Lemma failed_raw_pairs env endpoint ids :
  length (failed env endpoint true ids) ≤ length (failed env endpoint false ids).
Proof.
  induction ids as [| id rest IH]; [done |].
  rewrite !failed_cons.
  destruct (succeeds env endpoint false id) eqn:Hp.
  - by rewrite (succeeds_pairs_raw _ _ _ Hp).
  - destruct (succeeds env endpoint true id); simpl; lia.
Qed.

(** X11: an object that succeeds in pairs mode succeeds in full-list
    mode, with at least two terms of which the pairs are the
    combinations; so over the same object IDs the pairs loop counts at
    least as many failures as the full-list loop. *)
Theorem pairs_mode_fails_where_full_list_fails env endpoint verbose limiter
    ids s s' :
  (0 < calls_per_second limiter)%Q →
  (∀ id v t pairs,
     fst (process_object_terms env endpoint id false v t) = Ok (pairs, true) →
     ∃ terms,
       fst (process_object_terms env endpoint id true v t) = Ok (terms, true) ∧
       2 ≤ length terms ∧ pairs = map pair_dict (combinations2 terms)) ∧
  ∃ terms full_failed pairs pairs_failed,
    fst (pairs_loop env endpoint true verbose ids limiter [] 0 s)
      = Ok (terms, full_failed) ∧
    fst (pairs_loop env endpoint false verbose ids limiter [] 0 s')
      = Ok (pairs, pairs_failed) ∧
    full_failed ≤ pairs_failed.
Proof.
  intros Hpos. split.
  - intros id v t pairs. rewrite !process_object_terms_run; simpl.
    rewrite object_result_pairs. unfold object_pairs, object_result.
    destruct (fetch_terms env endpoint (py_str id) true)
      as [[terms |] | e]; simpl; [| done | done].
    destruct (Nat.ltb_spec 1 (length terms)) as [Hlen | Hlen]; [| done].
    intros [= <- _]. exists terms.
    destruct terms as [| term others]; [simpl in Hlen; lia |].
    split; [done |]. split; [lia | done].
  - destruct (pairs_loop_run env endpoint true verbose ids limiter [] 0 s Hpos)
      as (s1 & -> & _).
    destruct (pairs_loop_run env endpoint false verbose ids limiter [] 0 s' Hpos)
      as (s2 & -> & _).
    eexists _, _, _, _. split; [reflexivity |]. split; [reflexivity |].
    simpl. apply failed_raw_pairs.
Qed.

(** The four objects of the demo world: one failure in full-list mode,
    two in pairs mode. *)
Lemma pairs_mode_fails_where_full_list_fails_witness :
  ∃ terms full_failed pairs pairs_failed,
    fst (pairs_loop demo_env demo_base true false demo_ids fresh_limiter [] 0
           demo_state) = Ok (terms, full_failed) ∧
    fst (pairs_loop demo_env demo_base false false demo_ids fresh_limiter [] 0
           demo_state) = Ok (pairs, pairs_failed) ∧
    full_failed ≤ pairs_failed.
Proof.
  refine (proj2 (pairs_mode_fails_where_full_list_fails demo_env demo_base false
                   fresh_limiter demo_ids demo_state demo_state _)).
  reflexivity.
Defined.

(** ** get_object_ids *)

Lemma slice_to_prefix {A} (l : list A) k : slice_to l k `prefix_of` l.
Proof. unfold slice_to. destruct (0 <=? k)%Z; apply prefix_take. Qed.

(** X12: when the collection lists its object IDs in an array, the
    function returns a front part of that array: all of it without a
    limit or with limit 0, the first [k] IDs (or all, if there are
    fewer) with a positive limit [k], and all but the last [-k] IDs with
    a negative limit [k]. *)
Theorem get_object_ids_takes_from_the_front env ce cp limit data items s :
  respond env (collection_request ce cp) = Body data →
  py_get data "objectIDs" (JArr []) = Ok (JArr items) →
  ∃ ids,
    fst (get_object_ids env ce cp limit s) = Ok (JArr ids) ∧
    ids `prefix_of` items ∧
    match limit with
    | None => ids = items
    | Some k =>
        if (k =? 0)%Z then ids = items
        else if (0 <? k)%Z then length ids = Z.to_nat k `min` length items
        else length ids = length items - Z.to_nat (- k)
    end.
Proof.
  intros Hbody Hget. rewrite get_object_ids_run; simpl.
  unfold listed_object_ids, fetch. rewrite Hbody; simpl. rewrite Hget; simpl.
  destruct limit as [k |]; [| by exists items].
  destruct (k =? 0)%Z eqn:Hzero; [by exists items |].
  simpl. exists (slice_to items k). split; [done |].
  split; [apply slice_to_prefix |].
  apply Z.eqb_neq in Hzero.
  unfold slice_to. destruct (Z.ltb_spec 0 k), (Z.leb_spec 0 k);
    rewrite ?length_take; lia.
Qed.

(** The demo collection with a limit of three. *)
Lemma get_object_ids_takes_from_the_front_witness :
  ∃ ids,
    fst (get_object_ids demo_env demo_base None (Some 3%Z) demo_state)
      = Ok (JArr ids) ∧
    ids `prefix_of` demo_ids ∧ length ids = 3 `min` length demo_ids.
Proof.
  apply (get_object_ids_takes_from_the_front demo_env demo_base None (Some 3%Z)
           (JObj [("total", JInt 4); ("objectIDs", JArr demo_ids)]) demo_ids
           demo_state); reflexivity.
Defined.

(** X13: a body whose [objectIDs] is null (a search without results)
    gives [None] without a limit or with limit 0, and raises TypeError
    with any other limit, since [None] cannot be sliced; a body without
    the key gives the empty list whatever the limit. *)
Theorem get_object_ids_without_a_list env ce cp limit data s :
  respond env (collection_request ce cp) = Body data →
  (py_get data "objectIDs" (JArr []) = Ok JNull →
   fst (get_object_ids env ce cp limit s) =
     match limit with
     | None => Ok JNull
     | Some k => if (k =? 0)%Z then Ok JNull else Raise TypeError
     end) ∧
  (py_getitem data "objectIDs" = Raise (KeyError "objectIDs") →
   fst (get_object_ids env ce cp limit s) = Ok (JArr [])).
Proof.
  intros Hbody. rewrite get_object_ids_run; simpl.
  unfold listed_object_ids, fetch. rewrite Hbody; simpl. split.
  - intros ->; simpl. destruct limit as [k |]; [| done].
    by destruct (k =? 0)%Z.
  - intros Hmissing. destruct data; simpl in Hmissing; try done.
    simpl. destruct (assoc "objectIDs" fields) eqn:Hkey; [done |]. simpl.
    destruct limit as [k |]; [| done]. destruct (k =? 0)%Z; [done |].
    simpl. unfold slice_to. destruct (0 <=? k)%Z; by rewrite take_nil.
Qed.

Lemma get_object_ids_without_a_list_witness :
  fst (get_object_ids demo_env (demo_base +:+ "/3") None (Some 5%Z) demo_state)
  = Ok (JArr []).
Proof.
  refine (proj2 (get_object_ids_without_a_list demo_env (demo_base +:+ "/3") None
                   (Some 5%Z) (tags_body ["Crosses"]) demo_state _) _);
    reflexivity.
Defined.

(** ** The batch functions around the loop *)

Lemma batch_prelude env ce cp endpoint report_file save_file save_csv limit s s1 :
  validate_paths env [save_file; save_csv; Some report_file] s = (Ok tt, s1) →
  endpoint ≠ "" →
  requests (sent env (collection_request ce cp) s1)
    = collection_request ce cp :: requests s ∧
  files (sent env (collection_request ce cp) s1) = files s ∧
  get_object_ids env ce cp limit s1
    = (listed_object_ids env ce cp limit, sent env (collection_request ce cp) s1).
Proof.
  intros Hval Hep. destruct (validate_paths_traffic _ _ _ _ _ Hval) as [Hreq Hf].
  rewrite get_object_ids_run. simpl. by rewrite Hreq, Hf.
Qed.

(** The steps of a batch function up to the listing, once the paths are
    validated ([Hval]) and the object endpoint is given. *)
Ltac enter_batch Hval :=
  unfold bind at 1; rewrite Hval, bool_decide_eq_false_2 by done;
  unfold bind at 1; rewrite fresh_limiter_init; unfold lift at 1;
  unfold bind at 1.

(** X14: when the listing is empty or otherwise false ([[]], [None],
    [{}], [""], [0]), both batch functions return [([], 0)] right after
    the one request of the listing: no object is requested and no file
    is written, not even the report. *)
Theorem empty_listing_writes_nothing env ce cp endpoint report report_file
    save_file save_csv verbose full limit s s1 objectIDs :
  validate_paths env [save_file; save_csv; Some report_file] s = (Ok tt, s1) →
  endpoint ≠ "" →
  fst (get_object_ids env ce cp limit s1) = Ok objectIDs →
  py_bool objectIDs = false →
  get_terms_pairs env ce cp (Some endpoint) report report_file save_file
    save_csv verbose full limit s
  = (Ok (ResList [], 0), sent env (collection_request ce cp) s1) ∧
  get_terms_from_collection env ce cp (Some endpoint) report report_file
    save_file save_csv verbose limit s
  = (Ok (ResList [], 0), sent env (collection_request ce cp) s1) ∧
  files (sent env (collection_request ce cp) s1) = files s ∧
  requests (sent env (collection_request ce cp) s1)
    = collection_request ce cp :: requests s.
Proof.
  intros Hval Hep Hlisted Hfalse.
  destruct (batch_prelude env ce cp endpoint report_file save_file save_csv
              limit s s1 Hval Hep) as (Hreq & Hfiles & Hrun).
  rewrite Hrun in Hlisted. simpl in Hlisted.
  split; [| split; [| done]].
  - unfold get_terms_pairs. enter_batch Hval.
    by rewrite Hrun, Hlisted, Hfalse.
  - unfold get_terms_from_collection. enter_batch Hval.
    by rewrite Hrun, Hlisted, Hfalse.
Qed.

(** A search of the demo world that comes back with the single-term
    object: its body has no [objectIDs]. *)
Lemma empty_listing_writes_nothing_witness :
  get_terms_pairs demo_env (demo_base +:+ "/3") None (Some demo_base) true
    "report.txt" (Some "data/pairs.json") (Some "data/pairs.csv") false false
    None lonely_state
  = (Ok (ResList [], 0),
     sent demo_env (collection_request (demo_base +:+ "/3") None) lonely_state).
Proof.
  refine (proj1 (empty_listing_writes_nothing demo_env (demo_base +:+ "/3") None
                   demo_base true "report.txt" (Some "data/pairs.json")
                   (Some "data/pairs.csv") false false None lonely_state
                   lonely_state (JArr []) _ _ _ _)).
  - vm_compute. reflexivity.
  - discriminate.
  - reflexivity.
  - reflexivity.
Defined.

(** X15: an exception of the listing is not caught: both batch functions
    raise it after that one request, and no file is written. *)
Theorem listing_failure_aborts_the_batch env ce cp endpoint report report_file
    save_file save_csv verbose full limit s s1 e :
  validate_paths env [save_file; save_csv; Some report_file] s = (Ok tt, s1) →
  endpoint ≠ "" →
  fst (get_object_ids env ce cp limit s1) = Raise e →
  get_terms_pairs env ce cp (Some endpoint) report report_file save_file
    save_csv verbose full limit s
  = (Raise e, sent env (collection_request ce cp) s1) ∧
  get_terms_from_collection env ce cp (Some endpoint) report report_file
    save_file save_csv verbose limit s
  = (Raise e, sent env (collection_request ce cp) s1) ∧
  files (sent env (collection_request ce cp) s1) = files s ∧
  requests (sent env (collection_request ce cp) s1)
    = collection_request ce cp :: requests s.
Proof.
  intros Hval Hep Hlisted.
  destruct (batch_prelude env ce cp endpoint report_file save_file save_csv
              limit s s1 Hval Hep) as (Hreq & Hfiles & Hrun).
  rewrite Hrun in Hlisted. simpl in Hlisted.
  split; [| split; [| done]].
  - unfold get_terms_pairs. enter_batch Hval. by rewrite Hrun, Hlisted.
  - unfold get_terms_from_collection. enter_batch Hval. by rewrite Hrun, Hlisted.
Qed.

(** A collection endpoint that answers with an error status. *)
Lemma listing_failure_aborts_the_batch_witness :
  get_terms_pairs demo_env "https://api.example/nothing" None (Some demo_base)
    true "report.txt" (Some "data/pairs.json") (Some "data/pairs.csv") false
    false None lonely_state
  = (Raise (Exception "HTTP request failed"),
     sent demo_env (collection_request "https://api.example/nothing" None)
       lonely_state).
Proof.
  refine (proj1 (listing_failure_aborts_the_batch demo_env
                   "https://api.example/nothing" None demo_base true
                   "report.txt" (Some "data/pairs.json") (Some "data/pairs.csv")
                   false false None lonely_state lonely_state
                   (Exception "HTTP request failed") _ _ _)).
  - vm_compute. reflexivity.
  - discriminate.
  - reflexivity.
Defined.

(** ** save_results *)

(** X16: with destinations that can be written (each has a name, its
    directory exists, the operating system lets the program write it),
    [save_results] writes the edge table only in pairs mode and only
    when there is a pair: in full-list mode, and for an empty list of
    pairs, the CSV path keeps what it held (a table of an earlier run
    stays); otherwise it holds the table grouped from the pairs of
    string terms. *)
Theorem csv_is_written_only_for_pairs env pairs terms csv_path save_file report
    report_file total_objects none_count s :
  can_write env s csv_path →
  (∀ p, save_file = Some p → p ≠ "" → p ≠ csv_path ∧ can_write env s p) →
  (report = true → report_file ≠ csv_path ∧ can_write env s report_file) →
  (∃ s',
     save_results env terms (Some csv_path) save_file report report_file
       total_objects none_count true s = (Ok tt, s') ∧
     files s' !! csv_path = files s !! csv_path) ∧
  (∃ s',
     save_results env (ResList (map pair_dict (map str_row pairs)))
       (Some csv_path) save_file report report_file total_objects none_count
       false s = (Ok tt, s') ∧
     files s' !! csv_path =
       if bool_decide (pairs = []) then files s !! csv_path
       else Some (FCsv (groupby_size (map str_row pairs)))).
Proof.
  intros Hcan Hjson Hreport. pose proof Hcan as (Hcsv & _ & _).
  assert (Hfile : save_file ≠ Some csv_path).
  { intros ->. by destruct (Hjson csv_path eq_refl Hcsv). }
  assert (Hcells : Forall str_cells (map str_row pairs)).
  { apply Forall_forall. intros row ([a b] & -> & _)%list_elem_of_fmap. done. }
  split.
  - destruct (save_results_ok env terms (Some csv_path) save_file report
                report_file total_objects none_count true s) as (s' & Hrun).
    + by left.
    + by intros p [= <-] _ _.
    + intros p Hp Hne. by apply Hjson.
    + intros Hr. by destruct (Hreport Hr).
    + exists s'. split; [done |].
      eapply save_results_other_paths; [exact Hrun | by right | done |].
      intros Hr. by destruct (Hreport Hr).
  - destruct (save_results_ok env (ResList (map pair_dict (map str_row pairs)))
                (Some csv_path) save_file report report_file total_objects
                none_count false s) as (s' & Hrun).
    + right; right. by eexists.
    + by intros p [= <-] _ _.
    + intros p Hp Hne. by apply Hjson.
    + intros Hr. by destruct (Hreport Hr).
    + exists s'. split; [done |].
      rewrite (save_results_csv_file env (map str_row pairs) csv_path save_file
                 report report_file total_objects none_count s s');
        [| done | done | done | | done].
      * by destruct pairs.
      * intros Hr. by destruct (Hreport Hr).
Qed.

(** Two occurrences of one pair, written as one row of weight two. *)
Lemma csv_is_written_only_for_pairs_witness :
  ∃ s',
    save_results demo_env
      (ResList (map pair_dict
                  (map str_row [("Angels", "Saints"); ("Angels", "Saints")])))
      (Some "data/pairs.csv") None false "report.txt" 2 0 false lonely_state
    = (Ok tt, s') ∧
    files s' !! "data/pairs.csv"
    = Some (FCsv [{| Source := JStr "Angels"; Target := JStr "Saints";
                     Weight := 2 |}]).
Proof.
  refine (proj2 (csv_is_written_only_for_pairs demo_env
                   [("Angels", "Saints"); ("Angels", "Saints")] (ResList [])
                   "data/pairs.csv" None false "report.txt" 2 0 lonely_state
                   _ _ _)).
  - split; [discriminate |]. split; [| reflexivity].
    apply (bool_decide_unpack _). vm_compute. exact I.
  - discriminate.
  - discriminate.
Defined.

(** X17: with [report] on, destinations that can be written, and
    string cells where a frame is grouped, [save_results] leaves the
    report text with the
    three counts at the report path, also when the same path was given
    for the table or the dump, whose content it then replaces; and a
    path given for none of the three is left alone. *)
Theorem report_is_written_last env terms save_csv save_file report_file
    total_objects none_count full s :
  full = true ∨ truthy_path save_csv = false ∨
  (∃ rows, terms = ResList (map pair_dict rows) ∧ Forall str_cells rows) →
  (∀ p, save_csv = Some p → p ≠ "" → full = false → can_write env s p) →
  (∀ p, save_file = Some p → p ≠ "" → can_write env s p) →
  can_write env s report_file →
  ∃ s',
    save_results env terms save_csv save_file true report_file total_objects
      none_count full s = (Ok tt, s') ∧
    files s' !! report_file
    = Some (FText (report_text total_objects (batch_len terms) none_count)) ∧
    (∀ path, save_csv ≠ Some path → save_file ≠ Some path →
             report_file ≠ path → files s' !! path = files s !! path).
Proof.
  intros Hshape Hcsv Hjson Hreport.
  destruct (save_results_ok env terms save_csv save_file true report_file
              total_objects none_count full s Hshape Hcsv Hjson)
    as (s' & Hrun); [done |].
  exists s'. split; [done |]. split; [by eapply save_results_report_file |].
  intros path Hcsv' Hjson' Hother.
  eapply save_results_other_paths; [exact Hrun | by left | done | done].
Qed.

(** A dump and a report sent to the same path. *)
Lemma report_is_written_last_witness :
  ∃ s',
    save_results demo_env (ResDict [(JInt 3, JArr [JStr "Crosses"])]) None
      (Some "data/out.txt") true "data/out.txt" 1 0 true lonely_state
      = (Ok tt, s') ∧
    files s' !! "data/out.txt" = Some (FText (report_text 1 1 0)).
Proof.
  destruct (report_is_written_last demo_env
              (ResDict [(JInt 3, JArr [JStr "Crosses"])])
              None (Some "data/out.txt") "data/out.txt" 1 0 true lonely_state)
    as (s' & Hrun & Hfile & _).
  - left. reflexivity.
  - discriminate.
  - intros p [= <-] _. split; [discriminate |]. split; [| reflexivity].
    apply (bool_decide_unpack _). vm_compute. exact I.
  - split; [discriminate |]. split; [| reflexivity].
    apply (bool_decide_unpack _). vm_compute. exact I.
  - exists s'. split; [exact Hrun | exact Hfile].
Defined.

(** ** The whole batch *)

(** X18: with a positive [limit] and a collection that lists its object
    IDs in an array, [get_terms_pairs] requests the first [limit] IDs of
    the array, in their order and each once, after the one request of
    the listing, however the batch ends: a batch sends at most
    [limit + 1] requests. *)
Theorem limit_caps_the_batch env ce cp endpoint report report_file save_file
    save_csv verbose full k data items s s1 :
  validate_paths env [save_file; save_csv; Some report_file] s = (Ok tt, s1) →
  endpoint ≠ "" →
  respond env (collection_request ce cp) = Body data →
  py_get data "objectIDs" (JArr []) = Ok (JArr items) →
  (0 < k)%Z →
  let ids := take (Z.to_nat k) items in
  ∃ r s',
    get_terms_pairs env ce cp (Some endpoint) report report_file save_file
      save_csv verbose full (Some k) s = (r, s') ∧
    requests s' = map (λ id, object_request endpoint (py_str id)) (reverse ids)
                    ++ collection_request ce cp :: requests s ∧
    length (requests s') ≤ length (requests s) + 1 + Z.to_nat k.
Proof.
  intros Hval Hep Hbody Hget Hk ids.
  assert (Hlisted : listed_object_ids env ce cp (Some k) = Ok (JArr ids)).
  { unfold listed_object_ids, fetch. rewrite Hbody; simpl. rewrite Hget; simpl.
    destruct (Z.eqb_spec k 0); [lia |]. simpl. unfold slice_to.
    by destruct (Z.leb_spec 0 k); [| lia]. }
  destruct (get_terms_pairs_run env ce cp endpoint report report_file save_file
              save_csv verbose full (Some k) s s1 (JArr ids) ids Hval Hep
              Hlisted eq_refl) as (s3 & Hreq & _ & _ & Hrun).
  assert (Hlen : length (requests s3) ≤ length (requests s) + 1 + Z.to_nat k).
  { rewrite Hreq, length_app. unfold object_requests.
    rewrite length_map, length_reverse. subst ids. rewrite length_take.
    simpl. lia. }
  rewrite Hrun. case_bool_decide as Hnil.
  { eexists _, s3. split; [reflexivity |]. by split. }
  destruct (save_results env _ save_csv save_file report report_file _ _ full s3)
    as [r4 s4] eqn:Hsave.
  apply save_results_traffic in Hsave as (Hreq4 & _).
  eexists _, s4. split; [reflexivity |]. rewrite Hreq4. by split.
Qed.

(** The demo collection of four objects with a limit of two. *)
Lemma limit_caps_the_batch_witness :
  ∃ r s',
    get_terms_pairs demo_env demo_base None (Some demo_base) true "report.txt"
      (Some "data/pairs.json") (Some "data/pairs.csv") false false (Some 2%Z)
      lonely_state = (r, s') ∧
    requests s' = map (λ id, object_request demo_base (py_str id))
                    (reverse (take 2 demo_ids))
                    ++ collection_request demo_base None :: requests lonely_state ∧
    length (requests s') ≤ length (requests lonely_state) + 1 + 2.
Proof.
  apply (limit_caps_the_batch demo_env demo_base None demo_base true "report.txt"
           (Some "data/pairs.json") (Some "data/pairs.csv") false false 2%Z
           (JObj [("total", JInt 4); ("objectIDs", JArr demo_ids)]) demo_ids
           lonely_state lonely_state);
    [vm_compute; reflexivity | discriminate | reflexivity | reflexivity | lia].
Defined.

(** X19: a raw batch with [report] on and destinations that can be
    written ([open] raises for a report without a name, and where the
    operating system refuses the path), over a non-empty listing of
    distinct identifiers, leaves a report whose three counts are the
    number of listed IDs, the number of entries of the returned dict and
    the returned failure count; the last two add up to the first. *)
Theorem raw_report_counts_add_up env ce cp endpoint report_file save_file
    save_csv verbose limit s s1 objectIDs ids :
  validate_paths env [save_file; save_csv; Some report_file] s = (Ok tt, s1) →
  endpoint ≠ "" →
  fst (get_object_ids env ce cp limit s1) = Ok objectIDs →
  py_iter objectIDs = Ok ids →
  ids ≠ [] →
  Forall is_identifier ids →
  NoDup ids →
  destinations_writable env save_file save_csv true report_file →
  ∃ terms_dict none_count s',
    get_terms_from_collection env ce cp (Some endpoint) true report_file
      save_file save_csv verbose limit s
    = (Ok (ResDict terms_dict, none_count), s') ∧
    files s' !! report_file
    = Some (FText (report_text (length ids) (length terms_dict) none_count)) ∧
    length terms_dict + none_count = length ids.
Proof.
  intros Hval Hep Hlisted Hiter Hne Hids Hnd Hwrite.
  rewrite get_object_ids_run in Hlisted. simpl in Hlisted.
  destruct (get_terms_from_collection_run env ce cp endpoint true report_file
              save_file save_csv verbose limit s s1 objectIDs ids Hval Hep
              Hlisted Hiter Hids) as (s3 & _ & _ & Hdirs & Hrun).
  destruct (validated_destinations env save_file save_csv true report_file
              s s1 s3 Hval Hdirs Hwrite) as (Hcsv & Hjson & Hrep).
  rewrite bool_decide_eq_false_2 in Hrun by done.
  destruct (save_results_ok env (ResDict (accumulated_dict env endpoint [] ids))
              save_csv save_file true report_file (length ids)
              (length (failed env endpoint true ids)) true s3)
    as (s' & Hsave).
  { by left. }
  { intros p Hp Hnep _. by apply Hcsv. }
  { done. }
  { done. }
  rewrite Hsave in Hrun. simpl in Hrun.
  exists (accumulated_dict env endpoint [] ids),
         (length (failed env endpoint true ids)), s'.
  split; [done |]. split.
  - by apply save_results_report_file in Hsave.
  - rewrite accumulated_dict_NoDup, length_map by done.
    apply successful_failed_length.
Qed.

(** The demo collection: two objects with terms, two without. *)
Lemma raw_report_counts_add_up_witness :
  ∃ terms_dict none_count s',
    get_terms_from_collection demo_env demo_base None (Some demo_base) true
      "report.txt" (Some "data/raw.json") (Some "data/pairs.csv") false None
      lonely_state
    = (Ok (ResDict terms_dict, none_count), s') ∧
    files s' !! "report.txt"
    = Some (FText (report_text (length demo_ids) (length terms_dict) none_count)) ∧
    length terms_dict + none_count = length demo_ids.
Proof.
  apply (raw_report_counts_add_up demo_env demo_base None demo_base "report.txt"
           (Some "data/raw.json") (Some "data/pairs.csv") false None
           lonely_state lonely_state (JArr demo_ids) demo_ids).
  - vm_compute. reflexivity.
  - discriminate.
  - reflexivity.
  - reflexivity.
  - discriminate.
  - repeat constructor.
  - apply (bool_decide_unpack (NoDup demo_ids)). vm_compute. exact I.
  - repeat split; intros; discriminate.
Defined.

(** ** The scripts *)

(** X20: [collectRawData.py] stops in every world before it reaches the
    network: its call leaves [save_csv] out, so path validation raises
    (the TypeError of the missing path, or before that the EOFError or
    FileNotFoundError of an unconfirmed directory); no request is sent
    and no file is written, so that the main of [termsFromRawData.py]
    still finds no raw file if there was none. *)
Theorem collectRawData_stops_before_the_network env s :
  ∃ e s',
    collectRawData env s = (Raise e, s') ∧
    (e = TypeError ∨ e = EOFError ∨ ∃ d, e = FileNotFoundError d) ∧
    requests s' = requests s ∧
    files s' = files s ∧
    (files s !! "data/raw/raw_medieval_art_tags.json" = None →
     termsFromRawData_main env s'
     = (Raise (FileNotFoundError "data/raw/raw_medieval_art_tags.json"), s')).
Proof.
  destruct (validate_paths_None env
              [Some "data/raw/raw_medieval_art_tags.json"; None;
               Some "data/raw/raw_medieval_art_tags_report.txt"] s)
    as (e & s' & Hval & Hreq & Hfiles).
  { right; left. }
  exists e, s'. split; [| split; [| split; [done | split; [done |]]]].
  - unfold collectRawData, get_terms_from_collection, bind. by rewrite Hval.
  - by eapply validate_paths_exceptions.
  - intros Habsent.
    unfold termsFromRawData_main, create_term_pairs, bind, json_load.
    by rewrite Hfiles, Habsent.
Qed.

(** X21: in a world whose listing is not a string, a run of
    [collectTermPairs.py] sends at most 31 requests, however it ends:
    the listing and, with [limit=30], at most thirty objects. *)
Theorem collectTermPairs_sends_at_most_31_requests env s r s' :
  (∀ data text,
     respond env (collection_request met_objects (Some [("departmentIds", "17")]))
       = Body data →
     py_get data "objectIDs" (JArr []) ≠ Ok (JStr text)) →
  collectTermPairs env s = (r, s') →
  length (requests s') ≤ length (requests s) + 31.
Proof.
  intros Hlist. unfold collectTermPairs.
  set (cp := Some [("departmentIds", "17")]).
  set (report_file := "data/processed/processed_medieval_art_tags_pairs_report.txt").
  set (save_file := Some "data/processed/processed_medieval_art_tags_pairs.json").
  set (save_csv := Some "data/processed/processed_medieval_art_tags_pairs.csv").
  assert (Hep : met_objects ≠ "") by done.
  destruct (validate_paths env [save_file; save_csv; Some report_file] s)
    as [[[] | e] s1] eqn:Hval.
  2: { unfold get_terms_pairs, bind. rewrite Hval. intros [= <- <-].
       apply validate_paths_traffic in Hval as [-> _]. lia. }
  destruct (batch_prelude env met_objects cp met_objects report_file save_file
              save_csv (Some 30%Z) s s1 Hval Hep) as (Hreq & _ & Hrun).
  destruct (listed_object_ids env met_objects cp (Some 30%Z))
    as [objectIDs | e] eqn:Hlisted.
  2: { unfold get_terms_pairs. enter_batch Hval. rewrite Hrun, ?Hlisted.
       intros [= <- <-]. rewrite Hreq. simpl. lia. }
  assert (Hiter : ∃ ids, py_iter objectIDs = Ok ids ∧ length ids ≤ 30).
  { revert Hlisted. unfold listed_object_ids, fetch.
    destruct (respond env _) as [| | | data | e'] eqn:Hbody; try done;
      [| by destruct e'].
    simpl.
    destruct (py_get data "objectIDs" (JArr [])) as [found | e] eqn:Hget;
      [| done].
    simpl. destruct found as [| | | | text | items |]; try done.
    - by destruct (Hlist data text).
    - intros [= <-]. exists (slice_to items 30). split; [done |].
      unfold slice_to. simpl. rewrite length_take. lia. }
  destruct Hiter as (ids & Hiter & Hlen).
  destruct (get_terms_pairs_run env met_objects cp met_objects true report_file
              save_file save_csv true false (Some 30%Z) s s1 objectIDs ids
              Hval Hep Hlisted Hiter) as (s2 & Hreq2 & _ & _ & Hbatch).
  assert (Hcount : length (requests s2) ≤ length (requests s) + 31).
  { rewrite Hreq2, length_app. unfold object_requests.
    rewrite length_map, length_reverse. simpl. lia. }
  rewrite Hbatch. case_bool_decide; [by intros [= <- <-] |].
  destruct (save_results env _ save_csv save_file true report_file _ _ false s2)
    as [r4 s4] eqn:Hsave.
  apply save_results_traffic in Hsave as (Hreq4 & _).
  intros [= <- <-]. by rewrite Hreq4.
Qed.

(** A world in which the Met endpoint lists forty objects. *)
Lemma collectTermPairs_sends_at_most_31_requests_witness :
  length (requests (snd (collectTermPairs met_env lonely_state)))
  ≤ length (requests lonely_state) + 31.
Proof.
  apply (collectTermPairs_sends_at_most_31_requests met_env lonely_state
           (fst (collectTermPairs met_env lonely_state))
           (snd (collectTermPairs met_env lonely_state))).
  - intros data text [= <-]. discriminate.
  - apply surjective_pairing.
Defined.

(** ** The offline deriver *)

Lemma comprehension_length {A B} (f : A → result B) items values :
  comprehension f items = Ok values → length values = length items.
Proof.
  revert values. induction items as [| v rest IH]; intros values; simpl.
  - by intros [= <-].
  - destruct (f v) as [w | e]; simpl; [| done].
    destruct (comprehension f rest) as [ws | e]; simpl; [| done].
    intros [= <-]. simpl. by rewrite (IH ws).
Qed.

(** X22: whatever the raw file holds, [create_term_pairs] either raises
    and leaves every file as it was, or returns an edge table and has
    written that table to the processed file, which can be written,
    and nothing else: it never returns the ungrouped frame. *)
Theorem create_term_pairs_writes_one_table env raw_terms_file
    processed_terms_file t r t' :
  create_term_pairs env raw_terms_file processed_terms_file t = (r, t') →
  match r with
  | Raise e => t' = t
  | Ok df =>
      ∃ table, df = EdgeFrame table ∧
               can_write env t processed_terms_file ∧
               t' = set_files (<[processed_terms_file := FCsv table]> (files t)) t
  end.
Proof.
  unfold create_term_pairs, bind, lift, json_load, raise, ret.
  destruct (files t !! raw_terms_file) as [[| text |] |];
    try by intros [= <- <-].
  destruct (py_items (json_loads text)) as [items | e]; [| by intros [= <- <-]].
  destruct (pairs_of_items items []) as [terms_list | e];
    [| by intros [= <- <-]].
  destruct (0 <? length terms_list) eqn:Hlen; [| by intros [= <- <-]].
  destruct (DataFrame terms_list) as [df | e] eqn:Hdf; [| by intros [= <- <-]].
  apply comprehension_length in Hdf. apply Nat.ltb_lt in Hlen.
  assert (Hne : df ≠ []) by (intros ->; simpl in Hdf; lia).
  rewrite bool_decide_eq_false_2 by done. simpl.
  destruct (groupby_weight df) as [table | e]; [| by intros [= <- <-]].
  destruct (to_csv env processed_terms_file table t) as [r1 t1] eqn:Hcsv.
  apply to_csv_run in Hcsv as [(-> & Hcan & ->) | [[-> | ->] ->]];
    intros [= <- <-]; [| done | done].
  by exists table.
Qed.

(** A raw file with two objects that share a pair of tags. *)
Lemma create_term_pairs_writes_one_table_witness :
  ∃ table,
    create_term_pairs demo_env "data/raw.json" "data/pairs.csv" angels_state
    = (Ok (EdgeFrame table),
       set_files (<["data/pairs.csv" := FCsv table]> (files angels_state))
         angels_state).
Proof.
  destruct (create_term_pairs demo_env "data/raw.json" "data/pairs.csv"
              angels_state) as [r t'] eqn:Hrun.
  pose proof (create_term_pairs_writes_one_table demo_env "data/raw.json"
                "data/pairs.csv" angels_state r t' Hrun) as Hone.
  assert (Hok : ∃ df, r = Ok df).
  { vm_compute in Hrun. injection Hrun as <- _. by eexists. }
  destruct Hok as [df ->]. destruct Hone as (table & -> & _ & ->).
  by exists table.
Defined.

Lemma sum_indicator {A} `{EqDecision A} (r : A) keys :
  NoDup keys → r ∈ keys →
  sum_list (map (λ k, if decide (r = k) then 1 else 0) keys) = 1.
Proof.
  induction 1 as [| k rest Hk Hnd IH]; [by intros ?%elem_of_nil |].
  intros Hin. simpl. destruct (decide (r = k)) as [-> | Hne].
  - assert (Hzero : sum_list (map (λ k0, if decide (k = k0) then 1 else 0) rest) = 0).
    { clear IH Hin Hnd. induction rest as [| k' rest IH]; [done |].
      apply not_elem_of_cons in Hk as [Hne Hk]. simpl.
      destruct (decide (k = k')); [done |]. by apply IH. }
    by rewrite Hzero.
  - apply elem_of_cons in Hin as [-> | Hin]; [done |]. by apply IH.
Qed.

Lemma sum_occurrences (rows keys : list (json * json)) :
  NoDup keys → (∀ r, r ∈ rows → r ∈ keys) →
  sum_list (map (λ k, occurrences k rows) keys) = length rows.
Proof.
  intros Hnd. induction rows as [| r rest IH]; intros Hin.
  - clear. induction keys as [| k keys IHk]; [done |]. exact IHk.
  - assert (Hsplit : ∀ ks,
              sum_list (map (λ k, occurrences k (r :: rest)) ks)
              = sum_list (map (λ k, if decide (r = k) then 1 else 0) ks)
                + sum_list (map (λ k, occurrences k rest) ks)).
    { induction ks as [| k ks IHk]; [done |]. simpl. rewrite IHk.
      unfold occurrences. rewrite filter_cons.
      destruct (decide (r = k)); simpl; lia. }
    rewrite Hsplit, sum_indicator, IH; [done | | done |].
    + intros r' Hr'. apply Hin. by right.
    + apply Hin. by left.
Qed.

Lemma groupby_size_weights rows :
  sum_list (map Weight (groupby_size rows)) = length rows.
Proof.
  unfold groupby_size. rewrite map_map. simpl.
  assert (Hperm : map (λ k, occurrences k rows) (sort_keys (remove_dups rows))
                  ≡ₚ map (λ k, occurrences k rows) (remove_dups rows))
    by (by rewrite sort_keys_perm).
  rewrite Hperm. apply sum_occurrences; [apply NoDup_remove_dups |].
  intros r Hr. by apply elem_of_remove_dups.
Qed.

Lemma json_loads_mapping mapping :
  NoDup (map fst mapping) → json_loads (mapping_json mapping) = mapping_json mapping.
Proof.
  intros Hnd. unfold mapping_json. simpl. f_equal. rewrite map_map. simpl.
  assert (Hsame : map (λ kv : string * list string,
                         (fst kv, JArr (map json_loads (map JStr (snd kv)))))
                    mapping
                  = map (λ kv, (fst kv, JArr (map JStr (snd kv)))) mapping).
  { apply map_ext. intros [k terms]. simpl. do 2 f_equal.
    apply json_loads_strs, Forall_forall. by intros v (t0 & -> & _)%list_elem_of_fmap. }
  change (dict_of_pairs
            (map (λ kv : string * list string,
                    (fst kv, JArr (map json_loads (map JStr (snd kv))))) mapping)
          = map (λ kv, (fst kv, JArr (map JStr (snd kv)))) mapping).
  rewrite Hsame. apply dict_of_pairs_NoDup. by rewrite map_map.
Qed.

(** X23: on a raw file that maps distinct object keys to lists of string
    terms, with at least one object of two terms, and with a processed
    file that can be written (it has a name, its directory exists, the
    operating system lets the program write it), [create_term_pairs]
    writes and returns the edge table of all pairs
    of terms of all objects; the weights of the table add up to the
    number of those pairs, [n (n - 1) / 2] for an object of [n] terms. *)
Theorem create_term_pairs_on_string_lists env raw_terms_file
    processed_terms_file t mapping :
  files t !! raw_terms_file = Some (FJson (mapping_json mapping)) →
  NoDup (map fst mapping) →
  Exists (λ kv, 2 ≤ length (snd kv)) mapping →
  can_write env t processed_terms_file →
  let table :=
    groupby_size (flat_map (λ kv, combinations2 (map JStr (snd kv))) mapping) in
  create_term_pairs env raw_terms_file processed_terms_file t
  = (Ok (EdgeFrame table),
     set_files (<[processed_terms_file := FCsv table]> (files t)) t) ∧
  sum_list (map Weight table)
  = sum_list (map (λ kv, choose (length (snd kv)) 2) mapping).
Proof.
  intros Hfile Hnd Htwo Hcan table. subst table.
  set (rows := flat_map (λ kv, combinations2 (map JStr (snd kv))) mapping).
  assert (Hrows : flat_map (λ kv : string * list string,
                              if 1 <? length (map JStr (snd kv))
                              then map pair_dict (combinations2 (map JStr (snd kv)))
                              else []) mapping
                  = map pair_dict rows).
  { subst rows. clear. induction mapping as [| [k terms] rest IH]; [done |].
    simpl. rewrite map_app, IH. f_equal.
    destruct (Nat.ltb_spec 1 (length (map JStr terms))) as [| Hshort]; [done |].
    by destruct terms as [| t0 [| t1 terms]]; [| | simpl in Hshort; lia]. }
  assert (Hne : rows ≠ []).
  { subst rows. clear -Htwo.
    induction Htwo as [[k terms] rest Hlen | kv rest _ IH]; simpl.
    - destruct terms as [| t0 [| t1 terms]]; simpl in Hlen; [lia | lia | done].
    - intros [_ Hnil]%app_eq_nil. by apply IH. }
  assert (Hcells : Forall str_cells rows).
  { subst rows. clear. induction mapping as [| [k terms] rest IH]; [constructor |].
    simpl. apply Forall_app. split; [| done].
    apply Forall_forall. intros [a b] [Ha Hb]%combinations2_members.
    apply list_elem_of_fmap in Ha as (x & -> & _).
    apply list_elem_of_fmap in Hb as (y & -> & _). done. }
  split.
  - rewrite (create_term_pairs_rows env raw_terms_file processed_terms_file t
               (mapping_json mapping)
               (map (λ kv, (fst kv, JArr (map JStr (snd kv)))) mapping) rows);
      [| done | by rewrite json_loads_mapping | | done].
    + rewrite bool_decide_eq_false_2 by done. by rewrite to_csv_ok.
    + rewrite (pairs_of_items_lists fst (λ kv, map JStr (snd kv))); simpl app.
      by rewrite Hrows.
  - rewrite groupby_size_weights. subst rows. clear.
    induction mapping as [| [k terms] rest IH]; [done |].
    simpl. by rewrite length_app, IH, length_combinations2, length_map.
Qed.

(** Three objects with three, two and one tag: four pairs. *)
Lemma create_term_pairs_on_string_lists_witness :
  ∃ table,
    create_term_pairs demo_env "data/raw.json" "data/pairs.csv" angels_state
    = (Ok (EdgeFrame table),
       set_files (<["data/pairs.csv" := FCsv table]> (files angels_state))
         angels_state) ∧
    sum_list (map Weight table) = 4.
Proof.
  eexists.
  apply (create_term_pairs_on_string_lists demo_env "data/raw.json"
           "data/pairs.csv" angels_state
           [("1", ["Angels"; "Saints"; "Crosses"]); ("2", ["Angels"; "Saints"]);
            ("3", ["Crosses"])]).
  - vm_compute. reflexivity.
  - apply (bool_decide_unpack (NoDup ["1"; "2"; "3"])). vm_compute. exact I.
  - left. simpl. lia.
  - split; [discriminate |]. split; [| reflexivity].
    apply (bool_decide_unpack _). vm_compute. exact I.
Defined.
